(** * Data-Visualization-Project: the data-access and sampling pipeline

    A shallow embedding of the JavaScript sources
    [data-loader.js], [windfield-canvas-visualization.js] and
    [correlation-visualization.js], and the properties of the pipeline
    that the specification states about them; then the samplers and
    reductions of [map-canvas-visualization.js],
    [windfield-visualization.js], [timeseries-visualization.js] and
    [app.js], and further properties that the code has.

    Conventions of the embedding:
    - a JavaScript number is an IEEE-754 binary64 value, [float];
    - array lengths, indices and point budgets are [nat] (they stay far
      below 2^53, where the floating-point operations on them are exact);
    - a JavaScript string is a [string] of bytes (UTF-8);
    - an object used as a record is an association list in key order;
    - a [Map] read only through has/get/set is a [gmap]; a [Map] whose
      iteration order is observed is an association list. *)

From Stdlib Require Import PrimFloat ZArith List String Ascii Lia Arith Bool.
From Stdlib Require Import DecimalString Sorted.
From Stdlib Require SpecFloat FloatOps FloatAxioms.
From stdpp Require Import gmap strings list.

Set Warnings "-inexact-float".
Local Open Scope nat_scope.

(** ** JavaScript built-ins used by the sources *)

Module Js.

(** [Array.prototype.filter] with the element index, as in
    [data.filter((d, i) => ...)]. *)
Fixpoint filter_from {A : Type} (p : A -> nat -> bool) (i : nat) (l : list A)
  : list A :=
  match l with
  | [] => []
  | d :: t =>
      if p d i then d :: filter_from p (S i) t else filter_from p (S i) t
  end.

Definition array_filter {A : Type} (p : A -> nat -> bool) (l : list A) : list A :=
  filter_from p 0 l.

(** The value of [Math.ceil(a / b)] for two counts [a], [b] with [a > 0]:
    a natural number, or [+Infinity] when [b] is [0]. For counts below
    2^32 the rounded quotient never crosses an integer, so the ceiling of
    the binary64 quotient is the exact ceiling. *)
Inductive count : Type :=
| Fin (n : nat)
| PosInf.

Definition ceil_div (a b : nat) : count :=
  match b with
  | 0 => PosInf
  | S _ => Fin ((a + b - 1) / b)
  end.

(** [Math.ceil(a / b)] for a count [a] and a positive count [b]. *)
Definition ceil_quot (a b : nat) : nat := (a + b - 1) / b.

(** [i % step === 0] for an index [i]: [i % Infinity] is [i], and
    [i % 0] is [NaN]. *)
Definition rem_is_zero (i : nat) (step : count) : bool :=
  match step with
  | PosInf => i =? 0
  | Fin 0 => false
  | Fin (S _ as s) => i mod s =? 0
  end.

(** *** Numbers *)

Definition two52 : float := 0x1p52%float.

(** [Math.floor]. Below 2^52 in magnitude, adding and removing 2^52
    rounds to the nearest integer, which is then corrected downwards;
    from 2^52 on every binary64 value is an integer already. *)
Definition floor (x : float) : float :=
  if (abs x <? two52)%float then
    if (x =? 0)%float then x
    else
      let r := if (0 <? x)%float then ((x + two52) - two52)%float
               else ((x - two52) + two52)%float in
      if (x <? r)%float then (r - 1)%float else r
  else x.

(** Two numbers print as the same string (in a template literal) when
    they are [==], or are both [NaN]. *)
Definition same_number_string (x y : float) : bool :=
  (is_nan x && is_nan y) || (x =? y)%float.

(** *** Strings

    White space is the ASCII part of the ECMAScript set (TAB, LF, VT, FF,
    CR, SP); upper-casing covers the ASCII letters. *)

Definition is_ws (c : ascii) : bool :=
  let n := nat_of_ascii c in
  (n =? 9) || (n =? 10) || (n =? 11) || (n =? 12) || (n =? 13) || (n =? 32).

Fixpoint trim_start (s : string) : string :=
  match s with
  | String c t => if is_ws c then trim_start t else s
  | EmptyString => s
  end.

Definition trim_end (s : string) : string := String.rev (trim_start (String.rev s)).
Definition trim (s : string) : string := trim_end (trim_start s).

(** [s.includes(sub)]. *)
Fixpoint includes (s sub : string) : bool :=
  String.prefix sub s ||
  match s with
  | String _ t => includes t sub
  | EmptyString => false
  end.

Definition ends_with (s suffix : string) : bool :=
  String.prefix (String.rev suffix) (String.rev s).

(** [s.split(sep)] for a one-character separator. *)
Fixpoint split_go (sep : ascii) (cur : string) (s : string) : list string :=
  match s with
  | EmptyString => [String.rev cur]
  | String c t =>
      if Ascii.eqb c sep then String.rev cur :: split_go sep EmptyString t
      else split_go sep (String c cur) t
  end.

Definition split (sep : ascii) (s : string) : list string :=
  split_go sep EmptyString s.

(** [s.substring(a, b)]: the bounds are clamped and swapped if needed. *)
Definition substring (s : string) (a b : nat) : string :=
  let lo := Nat.min (Nat.min a b) (String.length s) in
  let hi := Nat.min (Nat.max a b) (String.length s) in
  String.substring lo (hi - lo) s.

Definition upper_ascii (c : ascii) : ascii :=
  let n := nat_of_ascii c in
  if (97 <=? n) && (n <=? 122) then ascii_of_nat (n - 32) else c.

Fixpoint to_upper (s : string) : string :=
  match s with
  | String c t => String (upper_ascii c) (to_upper t)
  | EmptyString => EmptyString
  end.

(** *** Numeric literals *)

(** The binary64 value of a positive integer below 2^53 (every step is exact). *)
Fixpoint float_of_pos (p : positive) : float :=
  match p with
  | xH => 1
  | xO q => 2 * float_of_pos q
  | xI q => 2 * float_of_pos q + 1
  end%float.

Fixpoint mul_pow2 (n : nat) (x : float) : float :=
  match n with
  | 0 => x
  | S k => mul_pow2 k (x * 2)%float
  end.

Fixpoint div_pow2 (n : nat) (x : float) : float :=
  match n with
  | 0 => x
  | S k => div_pow2 k (x / 2)%float
  end.

Definition scale2 (x : float) (e : Z) : float :=
  if (0 <=? e)%Z then mul_pow2 (Z.to_nat e) x else div_pow2 (Z.to_nat (- e)) x.

(** The binary64 value nearest to the positive rational [n / d], ties to
    even: the quotient is cut to 53 bits (fewer below 2^-1022), rounded on
    the remainder, and scaled back by an exact power of two. *)
Definition round_ratio (n d : positive) : float :=
  let N := Zpos n in
  let D := Zpos d in
  let e0 := (Z.log2 N - Z.log2 D - 53)%Z in
  let quot (e : Z) : Z :=
    if (0 <=? e)%Z then (N / (D * 2 ^ e))%Z else ((N * 2 ^ (- e)) / D)%Z in
  let e1 := if (quot e0 <? 2 ^ 53)%Z then e0 else (e0 + 1)%Z in
  let e := Z.max e1 (-1074) in
  let num := if (0 <=? e)%Z then N else (N * 2 ^ (- e))%Z in
  let den := if (0 <=? e)%Z then (D * 2 ^ e)%Z else D in
  let q := (num / den)%Z in
  let r := (num mod den)%Z in
  let up := (den <? 2 * r)%Z || ((den =? 2 * r)%Z && Z.odd q) in
  match (if up then q + 1 else q)%Z with
  | Zpos p => scale2 (float_of_pos p) e
  | _ => 0%float
  end.

(** The value of the decimal [m * 10^e10]. Exponents beyond the binary64
    range are cut short: the result is infinite or zero whatever the
    remaining digits are. *)
Definition decimal_value (m : Z) (e10 : Z) : float :=
  match m with
  | Zpos p =>
      if (310 <? e10)%Z then infinity
      else if (e10 + Z.log2 m + 1 <? -400)%Z then 0%float
      else if (0 <=? e10)%Z then round_ratio (p * Z.to_pos (10 ^ e10)) 1
      else round_ratio p (Z.to_pos (10 ^ (- e10)))
  | _ => 0%float
  end.

Definition digit_of (base : Z) (c : ascii) : option Z :=
  let n := Z.of_nat (nat_of_ascii c) in
  let v := if (48 <=? n)%Z && (n <=? 57)%Z then Some (n - 48)%Z
           else if (97 <=? n)%Z && (n <=? 102)%Z then Some (n - 87)%Z
           else if (65 <=? n)%Z && (n <=? 70)%Z then Some (n - 55)%Z
           else None in
  match v with
  | Some k => if (k <? base)%Z then Some k else None
  | None => None
  end.

(** Longest run of digits: its value, its length, and what follows. *)
Fixpoint scan_digits (base : Z) (s : string) (acc : Z) (cnt : nat)
  : Z * nat * string :=
  match s with
  | String c t =>
      match digit_of base c with
      | Some k => scan_digits base t (acc * base + k)%Z (S cnt)
      | None => (acc, cnt, s)
      end
  | EmptyString => (acc, cnt, s)
  end.

(** [ExponentPart]: taken only when at least one digit follows. *)
Definition scan_exponent (s : string) : Z * string :=
  match s with
  | String c t =>
      if Ascii.eqb c "e" || Ascii.eqb c "E" then
        let '(neg, t') :=
          match t with
          | String "-" u => (true, u)
          | String "+" u => (false, u)
          | _ => (false, t)
          end in
        let '(v, cnt, rest) := scan_digits 10 t' 0%Z 0 in
        if cnt =? 0 then (0%Z, s)
        else ((if neg then - v else v)%Z, rest)
      else (0%Z, s)
  | EmptyString => (0%Z, s)
  end.

(** Longest prefix that is a [StrUnsignedDecimalLiteral]. *)
Definition scan_unsigned_decimal (s : string) : option (float * string) :=
  if String.prefix "Infinity" s then
    Some (infinity, String.substring 8 (String.length s - 8) s)
  else
    let '(ip, n1, r1) := scan_digits 10 s 0%Z 0 in
    let '(m, n2, r2, dot) :=
      match r1 with
      | String "." t =>
          let '(m, n2, r2) := scan_digits 10 t ip 0 in (m, n2, r2, true)
      | _ => (ip, 0, r1, false)
      end in
    if (n1 + n2 =? 0) then None
    else
      let '(ex, r3) := scan_exponent r2 in
      Some (decimal_value m (ex - Z.of_nat n2), r3).

Definition scan_sign (s : string) : bool * string :=
  match s with
  | String "-" t => (true, t)
  | String "+" t => (false, t)
  | _ => (false, s)
  end.

Definition scan_decimal (s : string) : option (float * string) :=
  let '(neg, t) := scan_sign s in
  match scan_unsigned_decimal t with
  | Some (x, rest) => Some (if neg then (- x)%float else x, rest)
  | None => None
  end.

(** [parseFloat(string)]. *)
Definition parseFloat (s : string) : float :=
  match scan_decimal (trim_start s) with
  | Some (x, _) => x
  | None => nan
  end.

Definition scan_radix (base : Z) (s : string) : float :=
  let '(v, cnt, rest) := scan_digits base s 0%Z 0 in
  if (cnt =? 0) || negb (String.eqb rest "") then nan
  else decimal_value v 0.

(** [Number(string)]: the whole trimmed string must be a numeric literal. *)
Definition string_to_number (s : string) : float :=
  let t := trim s in
  match t with
  | EmptyString => 0%float
  | String "0" (String c u) =>
      if Ascii.eqb c "x" || Ascii.eqb c "X" then scan_radix 16 u
      else if Ascii.eqb c "o" || Ascii.eqb c "O" then scan_radix 8 u
      else if Ascii.eqb c "b" || Ascii.eqb c "B" then scan_radix 2 u
      else match scan_decimal t with
           | Some (x, EmptyString) => x
           | _ => nan
           end
  | _ =>
      match scan_decimal t with
      | Some (x, EmptyString) => x
      | _ => nan
      end
  end.

(** *** d3-array *)

Definition float_of_nat (n : nat) : float :=
  match n with
  | 0 => 0%float
  | S _ => float_of_pos (Pos.of_nat n)
  end.

(** [d3.mean(values)]: the sum of the values that are not [NaN] over
    their count; [undefined] when there is none. *)
Definition d3_mean (values : list float) : option float :=
  let '(count, sum) :=
    fold_left
      (fun '(count, sum) v =>
         if is_nan v then (count, sum) else (S count, (sum + v)%float))
      values (0, 0%float) in
  match count with
  | 0 => None
  | S _ => Some (sum / float_of_nat count)%float
  end.

(** [d3.extent(values)]: the least and the greatest of the values that
    are not [NaN]; [[undefined, undefined]] when there is none. *)
Definition d3_extent (values : list float) : option (float * float) :=
  fold_left
    (fun acc v =>
       match acc with
       | None => if is_nan v then None else Some (v, v)
       | Some (mn, mx) =>
           let mn' := if (v <? mn)%float then v else mn in
           let mx' := if (mx <? v)%float then v else mx in
           Some (mn', mx')
       end)
    values None.

(** A number operand that may be [undefined] ([undefined] converts to [NaN]). *)
Definition num_or_nan (o : option float) : float :=
  match o with
  | Some x => x
  | None => nan
  end.

(** *** Values and objects *)

(** The values a record cell can hold. *)
Inductive value : Type :=
| VUndefined
| VNull
| VNum (x : float)
| VStr (s : string).

(** [ToBoolean]. *)
Definition truthy (v : value) : bool :=
  match v with
  | VUndefined | VNull => false
  | VNum x => negb (is_nan x || (x =? 0)%float)
  | VStr s => negb (String.eqb s "")
  end.

(** [a || b]. *)
Definition or_else (a b : value) : value := if truthy a then a else b.

(** [ToNumber], which is also [Number(v)]. *)
Definition to_number (v : value) : float :=
  match v with
  | VUndefined => nan
  | VNull => 0%float
  | VNum x => x
  | VStr s => string_to_number s
  end.

(** The global [isNaN(v)]. *)
Definition isNaN (v : value) : bool := is_nan (to_number v).

(** [v == null]. *)
Definition is_nullish (v : value) : bool :=
  match v with
  | VUndefined | VNull => true
  | _ => false
  end.

(** [ToString], as far as property keys need it. *)
Definition key_of_null : string := "null".

(** An object with string keys, in the order [Object.keys] lists them
    (insertion order; no key is an array index). *)
Definition object : Type := list (string * value).

Fixpoint get (o : object) (k : string) : value :=
  match o with
  | [] => VUndefined
  | (k', v) :: t => if String.eqb k' k then v else get t k
  end.

Definition has_own (o : object) (k : string) : bool :=
  existsb (fun kv => String.eqb (fst kv) k) o.

Fixpoint set (o : object) (k : string) (v : value) : object :=
  match o with
  | [] => [(k, v)]
  | (k', v') :: t =>
      if String.eqb k' k then (k', v) :: t else (k', v') :: set t k v
  end.

Definition keys (o : object) : list string := map fst o.

End Js.

(** ** [data-loader.js] *)

Module Loader.

(** *** Calendar dates

    A local calendar day is its number of days since 1970-01-01; the
    conversions are the usual proleptic Gregorian ones. [Date] objects at
    local midnight compare as their day numbers do. *)

Definition days_from_civil (y m d : Z) : Z :=
  let y := if (m <=? 2)%Z then (y - 1)%Z else y in
  let era := (y / 400)%Z in
  let yoe := (y - era * 400)%Z in
  let doy := ((153 * (if (2 <? m)%Z then m - 3 else m + 9) + 2) / 5 + d - 1)%Z in
  let doe := (yoe * 365 + yoe / 4 - yoe / 100 + doy)%Z in
  (era * 146097 + doe - 719468)%Z.

Definition civil_from_days (z : Z) : Z * Z * Z :=
  let z := (z + 719468)%Z in
  let era := (z / 146097)%Z in
  let doe := (z - era * 146097)%Z in
  let yoe := ((doe - doe / 1460 + doe / 36524 - doe / 146096) / 365)%Z in
  let doy := (doe - (365 * yoe + yoe / 4 - yoe / 100))%Z in
  let mp := ((5 * doy + 2) / 153)%Z in
  let d := (doy - (153 * mp + 2) / 5 + 1)%Z in
  let m := if (mp <? 10)%Z then (mp + 3)%Z else (mp - 9)%Z in
  ((if (m <=? 2)%Z then yoe + era * 400 + 1 else yoe + era * 400)%Z, m, d).

(** [new Date(y, m, d)] with a zero-based month: months and days outside
    their range carry over. *)
Definition new_Date (y m d : Z) : Z :=
  let months := (y * 12 + m)%Z in
  (days_from_civil (months / 12) (months mod 12 + 1) 1 + (d - 1))%Z.

Fixpoint zeros (n : nat) : string :=
  match n with
  | 0 => EmptyString
  | S k => String "0" (zeros k)
  end.

(** d3's [pad(value, "0", width)]. *)
Definition pad (value : Z) (width : nat) : string :=
  let digits := NilZero.string_of_uint (N.to_uint (Z.to_N (Z.abs value))) in
  ((if (value <? 0)%Z then "-" else "")
   ++ zeros (width - String.length digits) ++ digits)%string.

(** [d3.timeFormat("%Y%m%d")]. *)
Definition formatDate (date : Z) : string :=
  let '(y, m, d) := civil_from_days date in
  (pad (Z.rem y 10000) 4 ++ pad m 2 ++ pad d 2)%string.

Definition all_digits (s : string) : bool :=
  forallb (fun c => match Js.digit_of 10 c with Some _ => true | None => false end)
          (list_ascii_of_string s).

Definition number_of (s : string) : Z :=
  let '(v, _, _) := Js.scan_digits 10 s 0%Z 0 in v.

(** [d3.timeParse("%Y%m%d")] on the eight-digit date keys the loader
    works with; any other text is taken as unparseable ([null]). *)
Definition parseDate (s : string) : option Z :=
  if (String.length s =? 8) && all_digits s then
    Some (new_Date (number_of (Js.substring s 0 4))
                   (number_of (Js.substring s 4 6) - 1)
                   (number_of (Js.substring s 6 8)))
  else None.

(** *** The loader object, the network and asynchronous code *)

(** An array of records with its identity: two arrays are the same
    object when their [array_id]s agree. *)
Record array : Type := Array { array_id : nat; items : list Js.object }.

(** The fields of a [DataLoader], and the number of arrays created so
    far (the next fresh identity). *)
Record state : Type := State {
  dataCache : gmap string array;
  basePath : string;
  resolvedBasePath : option string;
  allocated : nat
}.

(** How a [fetch] settles: it throws, or gives a response. *)
Inductive fetch_result : Type :=
| NetworkError
| Response (ok : bool) (body : string).

Definition network : Type := string -> fetch_result.

(** An [async] method of the loader: synchronous code over the fields,
    suspended at every [fetch]. The other [await]s of the source wait for
    values that are produced without any further request; they are not
    kept as suspension points. *)
Inductive Async (A : Type) : Type :=
| Ret (a : A)
| Get (k : state -> Async A)
| Put (s : state) (k : Async A)
| Fetch (url : string) (k : fetch_result -> Async A).

Arguments Ret {A} a.
Arguments Get {A} k.
Arguments Put {A} s k.
Arguments Fetch {A} url k.

Fixpoint bind {A B : Type} (m : Async A) (f : A -> Async B) : Async B :=
  match m with
  | Ret a => f a
  | Get k => Get (fun s => bind (k s) f)
  | Put s k => Put s (bind k f)
  | Fetch url k => Fetch url (fun r => bind (k r) f)
  end.

#[global] Instance Async_ret : MRet Async := @Ret.
#[global] Instance Async_bind : MBind Async := fun A B f m => bind m f.

Definition get : Async state := Get Ret.
Definition put (s : state) : Async unit := Put s (Ret tt).
Definition fetch (url : string) : Async fetch_result := Fetch url Ret.

(** One caller at a time: the method runs to completion, every fetch
    answered by the network and recorded in the log. *)
Fixpoint run {A : Type} (net : network) (m : Async A) (st : state)
  (log : list string) : A * state * list string :=
  match m with
  | Ret a => (a, st, log)
  | Get k => run net (k st) st log
  | Put s k => run net k s log
  | Fetch url k => run net (k (net url)) st (log ++ [url])
  end.

(** Overlapping callers: a call runs until its next fetch is issued and
    stays suspended until that fetch settles. *)
Inductive task (A : Type) : Type :=
| Finished (a : A)
| Suspended (url : string) (k : fetch_result -> Async A).

Arguments Finished {A} a.
Arguments Suspended {A} url k.

Fixpoint advance {A : Type} (m : Async A) (st : state) (log : list string)
  : task A * state * list string :=
  match m with
  | Ret a => (Finished a, st, log)
  | Get k => advance (k st) st log
  | Put s k => advance k s log
  | Fetch url k => (Suspended url k, st, log ++ [url])
  end.

Record pool (A : Type) : Type := Pool {
  tasks : list (task A);
  shared : state;
  issued : list string
}.

Arguments Pool {A} tasks shared issued.
Arguments tasks {A} p.
Arguments shared {A} p.
Arguments issued {A} p.

(** Calling an [async] method: its synchronous prefix runs at once. *)
Definition call {A : Type} (m : Async A) (p : pool A) : pool A :=
  let '(t, st, log) := advance m (shared p) (issued p) in
  Pool (tasks p ++ [t]) st log.


(** *** The methods *)

(** The constructor, given the configured root ([?basePath=...],
    [window.DATASET_BASE_PATH]) if there is one. *)
Definition new_DataLoader (configured : option string) : state :=
  State ∅
        (match configured with
         | Some path => if String.eqb path "" then "./Dataset/" else path
         | None => "./Dataset/"
         end)
        None 0.

Definition with_slash (path : string) : string :=
  if Js.ends_with path "/" then path else (path ++ "/")%string.

(** [setBasePath(path)]. *)
Definition setBasePath (path : string) (st : state) : state :=
  if 0 <? String.length path then
    State (dataCache st) (with_slash path) (Some (with_slash path)) (allocated st)
  else st.

(** Whether [this.resolvedBasePath] is set (truthy). *)
Definition isResolved (st : state) : bool :=
  match resolvedBasePath st with
  | Some r => negb (String.eqb r "")
  | None => false
  end.

(** [this.resolvedBasePath || this.basePath]. *)
Definition currentRoot (st : state) : string :=
  match resolvedBasePath st with
  | Some r => if String.eqb r "" then basePath st else r
  | None => basePath st
  end.

Definition fileName (yearMonthDay : string) : string :=
  ("CN-Reanalysis-daily-" ++ yearMonthDay ++ "00.csv")%string.

(** The path of a day's file below a root: [`${yearMonth}/${fileName}`]. *)
Definition relativePath (yearMonthDay : string) : string :=
  (Js.substring yearMonthDay 0 6 ++ "/" ++ fileName yearMonthDay)%string.

Definition fallbackRoots : list string :=
  ["./Dataset/"; "./dataset/"; "./data/"; "/Dataset/"; "/data/"].

Definition candidates (st : state) : list string := basePath st :: fallbackRoots.

Definition testUrl (relative root : string) : string :=
  (with_slash root ++ relative)%string.

Definition response_ok (r : fetch_result) : bool :=
  match r with
  | Response ok _ => ok
  | NetworkError => false
  end.

(** The [for (const root of candidates)] loop. *)
Fixpoint probe (relative : string) (roots : list string) : Async string :=
  match roots with
  | [] => st ← get; mret (basePath st)
  | root :: rest =>
      let rootNorm := with_slash root in
      resp ← fetch (testUrl relative root);
      if response_ok resp then
        st ← get;
        _ ← put (State (dataCache st) rootNorm (Some rootNorm) (allocated st));
        mret rootNorm
      else probe relative rest
  end.

(** [resolveBasePathIfNeeded(yearMonthDay)]. *)
Definition resolveBasePathIfNeeded (yearMonthDay : string) : Async string :=
  st ← get;
  match resolvedBasePath st with
  | Some r =>
      if String.eqb r "" then probe (relativePath yearMonthDay) (candidates st)
      else mret r
  | None => probe (relativePath yearMonthDay) (candidates st)
  end.

(** [parseCSV(text)]: the headers and the rows. *)
Definition parseCell (cell : option string) : Js.value :=
  let value := match cell with
               | Some text => Js.parseFloat text
               | None => nan
               end in
  if is_nan value then
    match cell with
    | Some text => Js.VStr text
    | None => Js.VUndefined
    end
  else Js.VNum value.

Definition parseRow (headers : list string) (line : string) : Js.object :=
  let values := map Js.trim (Js.split "," line) in
  fold_left
    (fun row '(index, header) => Js.set row header (parseCell (values !! index)))
    (imap pair headers) [].

Definition newline : ascii := "010"%char.

Definition parseCSV (text : string) : list string * list Js.object :=
  let lines := Js.split newline (Js.trim text) in
  let headers :=
    filter (fun h => h ≠ ""%string) (map Js.trim (Js.split "," (hd ""%string lines))) in
  (headers, map (parseRow headers) (tail lines)).

(** A new array object. *)
Definition new_array (rows : list Js.object) : Async array :=
  st ← get;
  _ ← put (State (dataCache st) (basePath st) (resolvedBasePath st) (S (allocated st)));
  mret (Array (allocated st) rows).

(** [loadCSVFile(filePath)]: the parsed file, or [null]. *)
Definition loadCSVFile (filePath : string) : Async (option (list string * array)) :=
  response ← fetch filePath;
  match response with
  | Response true text =>
      let '(headers, rows) := parseCSV text in
      data ← new_array rows;
      mret (Some (headers, data))
  | _ => mret None
  end.

Definition stamp (yearMonthDay : string) (row : Js.object) : Js.object :=
  Js.set
    (Js.set (Js.set row "date" (Js.VStr yearMonthDay))
            "yearMonth" (Js.VStr (Js.substring yearMonthDay 0 6)))
    "day" (Js.VStr (Js.substring yearMonthDay 6 8)).

Definition dayPath (st : state) (yearMonthDay : string) : string :=
  (currentRoot st ++ Js.substring yearMonthDay 0 6 ++ "/" ++ fileName yearMonthDay)%string.

(** [loadDayData(yearMonthDay)]. *)
Definition loadDayData (yearMonthDay : string) : Async array :=
  st ← get;
  match dataCache st !! yearMonthDay with
  | Some cached => mret cached
  | None =>
      first ← loadCSVFile (dayPath st yearMonthDay);
      result ←
        match first with
        | Some r => mret (Some r)
        | None =>
            _ ← resolveBasePathIfNeeded yearMonthDay;
            st' ← get;
            loadCSVFile (dayPath st' yearMonthDay)
        end;
      match result with
      | None => new_array []
      | Some (_, data) =>
          let data := Array (array_id data) (map (stamp yearMonthDay) (items data)) in
          st' ← get;
          _ ← put (State (<[yearMonthDay := data]> (dataCache st'))
                         (basePath st') (resolvedBasePath st') (allocated st'));
          mret data
      end
  end.

(** The date list of [loadConsecutiveDays(startDate, days)]: the
    [while (currentDate >= endDate)] loop, which runs at most [days + 1]
    times. *)
Fixpoint walkBack (fuel : nat) (currentDate endDate : Z) (availableDates : list string)
  : list string :=
  match fuel with
  | 0 => availableDates
  | S fuel' =>
      if (endDate <=? currentDate)%Z then
        let dateStr := formatDate currentDate in
        let availableDates := availableDates ++ [dateStr] in
        if String.ltb dateStr "20130101" then availableDates
        else walkBack fuel' (currentDate - 1) endDate availableDates
      else availableDates
  end.

Definition availableDates (startDate : string) (days : nat) : option (list string) :=
  match parseDate startDate with
  | Some start => Some (walkBack (S days) start (start - Z.of_nat days) [])
  | None => None
  end.

(** [availableDates.map(async (date) => this.loadDayData(date))]: one
    call per date, each started before any fetch has settled. *)
Definition loadPromises (dates : list string) (p : pool array) : pool array :=
  fold_left (fun p date => call (loadDayData date) p) dates p.

(** *** Fixed-stride reductions *)

(** [sampleTimeseriesData(data, sampleRate = 10)]. *)
Definition sampleTimeseriesData {A : Type} (data : list A) (sampleRate : nat)
  : list A :=
  if (Z.of_nat (length data) <=? 10000)%Z then data
  else Js.array_filter (fun _ i => Js.rem_is_zero i (Js.Fin sampleRate)) data.

(** [sampleData(data, maxPoints = 2000)]. *)
Definition sampleData {A : Type} (data : list A) (maxPoints : nat) : list A :=
  if length data <=? maxPoints then data
  else
    let step := Js.ceil_div (length data) maxPoints in
    Js.array_filter (fun _ i => Js.rem_is_zero i step) data.

(** [loadMonthData(yearMonth)]: the first day of the month, read below
    [this.basePath] and cached under the month key. (The day count of the
    month that the source computes is not used.) *)
Definition stampMonth (yearMonth firstDay : string) (row : Js.object) : Js.object :=
  Js.set (Js.set row "date" (Js.VStr firstDay)) "yearMonth" (Js.VStr yearMonth).

Definition monthPath (st : state) (yearMonth : string) : string :=
  (basePath st ++ yearMonth ++ "/" ++ fileName (yearMonth ++ "01"))%string.

Definition loadMonthData (yearMonth : string) : Async array :=
  st ← get;
  match dataCache st !! yearMonth with
  | Some cached => mret cached
  | None =>
      allData ← new_array [];
      let firstDay := (yearMonth ++ "01")%string in
      result ← loadCSVFile (monthPath st yearMonth);
      let rows :=
        match result with
        | Some (_, data) => map (stampMonth yearMonth firstDay) (items data)
        | None => []
        end in
      let allData := Array (array_id allData) rows in
      st' ← get;
      _ ← put (State (<[yearMonth := allData]> (dataCache st'))
                     (basePath st') (resolvedBasePath st') (allocated st'));
      mret allData
  end.

(** *** Field resolution *)

(** An extracted point. *)
Record point : Type := Point {
  lat : Js.value;
  lon : Js.value;
  value : Js.value;
  date : Js.value;
  yearMonth : Js.value;
  temp : Js.value;
  rh : Js.value;
  u : Js.value;
  v : Js.value
}.

(** [!matchedKey] for a key that is [null] or a string. *)
Definition no_key (k : option string) : bool :=
  match k with
  | Some key => String.eqb key ""
  | None => true
  end.

Definition possibleKeys (pollutantName : string) : list string :=
  [ pollutantName;
    Js.trim pollutantName;
    " " ++ pollutantName;
    pollutantName ++ " ";
    pollutantName ++ "(";
    " " ++ pollutantName ++ "(" ]%string.

(** The column of the first record that stands for the variable. *)
Definition matchKey (first : Js.object) (pollutantName : string) : option string :=
  let direct := find (fun key => Js.has_own first key) (possibleKeys pollutantName) in
  if no_key direct then
    find (fun key => Js.includes key (Js.trim pollutantName)) (Js.keys first)
  else direct.

Definition project (matchedKey : string) (row : Js.object) : point :=
  {| lat := Js.get row "lat";
     lon := Js.get row "lon";
     value := Js.get row matchedKey;
     date := Js.get row "date";
     yearMonth := Js.get row "yearMonth";
     temp := Js.or_else (Js.get row "TEMP") (Js.get row "TEMP(K)");
     rh := Js.or_else (Js.get row "RH") (Js.get row "RH(%)");
     u := Js.or_else (Js.get row "U") (Js.get row "U(m/s)");
     v := Js.or_else (Js.get row "V") (Js.get row "V(m/s)") |}.

(** [d.value != null && !isNaN(d.value)]. *)
Definition keeps (d : point) : bool :=
  negb (Js.is_nullish (value d)) && negb (Js.isNaN (value d)).


(** [extractPollutantData(rawData, pollutantName)]. *)
Definition extractPollutantData (rawData : list Js.object) (pollutantName : string)
  : list point :=
  match rawData with
  | [] => []
  | first :: _ =>
      let matchedKey := matchKey first pollutantName in
      if no_key matchedKey then []
      else
        match matchedKey with
        | Some key => List.filter keeps (map (project key) rawData)
        | None => []
        end
  end.

(** A day file whose third row carries an infinite reading. *)
Definition sample_csv : string :=
  "lat,lon,PM2.5(微克每立方米),date
30.1,120.2,55,20130101
30.1,120.2,NA,20130101
30.2,120.3,Infinity,20130101".

(** What a parsed cell can be: a number that is not [NaN], the text of a
    cell that does not start with a number, or [undefined] for a cell the
    line does not have. *)
Definition parsed_cell (x : Js.value) : Prop :=
  match x with
  | Js.VUndefined => True
  | Js.VNull => False
  | Js.VNum n => is_nan n = false
  | Js.VStr text => is_nan (Js.parseFloat text) = true
  end.

(** A record that carries the stamp of a day. *)
Definition stamped (yearMonthDay : string) (row : Js.object) : Prop :=
  Js.get row "date" = Js.VStr yearMonthDay /\
  Js.get row "yearMonth" = Js.VStr (Js.substring yearMonthDay 0 6) /\
  Js.get row "day" = Js.VStr (Js.substring yearMonthDay 6 8).

(** [this.dataCache.has(key)]. *)
Definition isCached (st : state) (key : string) : bool :=
  match dataCache st !! key with
  | Some _ => true
  | None => false
  end.

(** A network on which every request fails. *)
Definition down_network : network := fun _ => NetworkError.

(** A network that serves the file of 2013-01-01 below [./dataset/] only. *)
Definition lowercase_network : network :=
  fun url =>
    if String.eqb url "./dataset/201301/CN-Reanalysis-daily-2013010100.csv"
    then Response true sample_csv
    else Response false "".

(** A network that serves the file of 2013-01-01 below [./Dataset/] only. *)
Definition default_network : network :=
  fun url =>
    if String.eqb url "./Dataset/201301/CN-Reanalysis-daily-2013010100.csv"
    then Response true sample_csv
    else Response false "".


(** How often a URL was fetched. *)
Definition fetch_count (url : string) (log : list string) : nat :=
  length (List.filter (String.eqb url) log).

End Loader.

(** ** [correlation-visualization.js] *)

Module Correlation.

(** [getColumnName(sample, varName)]: the first key that contains the
    variable name or its upper-case form, or [null]. *)
Definition getColumnName (sample : Js.object) (varName : string) : option string :=
  find (fun key => Js.includes key varName || Js.includes key (Js.to_upper varName))
       (Js.keys sample).

(** [d[k]] for a key that may be [null] (which reads the property named
    "null"). *)
Definition get_nullable (d : Js.object) (k : option string) : Js.value :=
  match k with
  | Some key => Js.get d key
  | None => Js.get d Js.key_of_null
  end.

(** [extractValue(d, varName)]: a number, or [null] ([None]). *)
Definition extractValue (d : Js.object) (varName : string) : option float :=
  let value :=
    Js.or_else
      (Js.or_else
         (Js.or_else (Js.get d varName)
                     (get_nullable d (getColumnName d varName)))
         (Js.get d (varName ++ "(微克每立方米)")))
      (Js.get d (varName ++ "(mg/m3)")) in
  if Js.is_nullish value || Js.isNaN value then None
  else Some (Js.to_number value).

(** [correlation(x, y)]: Pearson's coefficient of two arrays of numbers. *)
Definition deviations (x y : list float) : float * float * float :=
  let meanX := Js.num_or_nan (Js.d3_mean x) in
  let meanY := Js.num_or_nan (Js.d3_mean y) in
  fold_left
    (fun '(numerator, sumSqX, sumSqY) '(xi, yi) =>
       let dx := (xi - meanX)%float in
       let dy := (yi - meanY)%float in
       ((numerator + dx * dy)%float,
        (sumSqX + dx * dx)%float,
        (sumSqY + dy * dy)%float))
    (combine x y) (0%float, 0%float, 0%float).

Definition correlation (x y : list float) : float :=
  if negb (length x =? length y) || (length x =? 0) then 0%float
  else
    let '(numerator, sumSqX, sumSqY) := deviations x y in
    let denominator := sqrt (sumSqX * sumSqY) in
    if (denominator =? 0)%float then 0%float
    else (numerator / denominator)%float.

(** A deviation that is zero (of either sign). *)
Definition is_zero_float (z : float) : Prop := z = 0%float \/ z = (-0)%float.

(** [values[v] = data.map(d => this.extractValue(d, v)).filter(val => val !== null)]. *)
Definition column (data : list Js.object) (v : string) : list float :=
  omap id (map (fun d => extractValue d v) data).

(** [computeCorrelationMatrix(data, variables)]. *)
Definition computeCorrelationMatrix (data : list Js.object) (variables : list string)
  : list (list float) :=
  imap (fun i vi =>
          imap (fun j vj =>
                  if i =? j then 1%float
                  else correlation (column data vi) (column data vj))
               variables)
       variables.

(** [draw(data)], as far as the matrix goes: the variables present in
    the data are kept, and the matrix is computed when there are at least
    two of them. *)
Definition variables : list string :=
  ["PM2.5"; "PM10"; "SO2"; "NO2"; "CO"; "O3"; "温度"; "湿度"].

Definition defined (x : Js.value) : bool :=
  match x with
  | Js.VUndefined => false
  | _ => true
  end.

Definition availableVars (data : list Js.object) : list string :=
  List.filter
    (fun v => existsb (fun d => defined (Js.get d v)
                                || defined (get_nullable d (getColumnName d v)))
                      data)
    variables.

Definition draw (data : list Js.object) : option (list string * list (list float)) :=
  match data with
  | [] => None
  | _ :: _ =>
      let vars := availableVars data in
      if length vars <? 2 then None
      else Some (vars, computeCorrelationMatrix data vars)
  end.

(** The cell the specification describes: the coefficient of the pairs
    taken from the records in which both variables resolve. *)
Definition paired_values (data : list Js.object) (vi vj : string)
  : list (float * float) :=
  omap (fun d =>
          match extractValue d vi, extractValue d vj with
          | Some a, Some b => Some (a, b)
          | _, _ => None
          end)
       data.

Definition paired_correlation (data : list Js.object) (vi vj : string) : float :=
  let pairs := paired_values data vi vj in
  correlation (map fst pairs) (map snd pairs).

(** Three records of two pollutants: the first lacks a PM10 reading and
    the third a PM2.5 reading (the rows [1,NA], [2,10], [NA,20]). *)
Definition gappy_records : list Js.object :=
  [ [("PM2.5", Js.VNum 1); ("PM10", Js.VStr "NA")];
    [("PM2.5", Js.VNum 2); ("PM10", Js.VNum 10)];
    [("PM2.5", Js.VStr "NA"); ("PM10", Js.VNum 20)] ].

(** Three records in which both pollutants are constant (0.1 and 0.7). *)
Definition constant_records : list Js.object :=
  [ [("PM2.5", Js.VNum 0.1); ("PM10", Js.VNum 0.7)];
    [("PM2.5", Js.VNum 0.1); ("PM10", Js.VNum 0.7)];
    [("PM2.5", Js.VNum 0.1); ("PM10", Js.VNum 0.7)] ].

End Correlation.

(** ** [windfield-canvas-visualization.js] *)

Module Windfield.

Section Sampler.
(** The points carry numeric coordinates [d.lat] and [d.lon]. *)
Context {A : Type}.
Variables (lat lon : A -> float).

Definition gridSize : float := 50%float.

(** [d3.extent(data, d => d.lat)], with [undefined] bounds read as numbers. *)
Definition range (coord : A -> float) (data : list A) : float * float :=
  match Js.d3_extent (map coord data) with
  | Some (lo, hi) => (lo, hi)
  | None => (nan, nan)
  end.

Definition cellSize (r : float * float) : float :=
  ((snd r - fst r) / gridSize)%float.

(** [Math.floor((d.lat - latRange[0]) / latCellSize)]. *)
Definition gridIndex (coord : float) (r : float * float) : float :=
  Js.floor ((coord - fst r) / cellSize r)%float.

(** The key [`${gridX},${gridY}`], kept as the pair of numbers; two
    keys are the same string when both numbers print alike. *)
Definition gridKey (latRange lonRange : float * float) (d : A) : float * float :=
  (gridIndex (lat d) latRange, gridIndex (lon d) lonRange).

Definition same_key (k k' : float * float) : bool :=
  Js.same_number_string (fst k) (fst k') && Js.same_number_string (snd k) (snd k').

(** The [Map] from key to point, in insertion order. *)
Definition grid : Type := list ((float * float) * A).

Definition grid_has (g : grid) (k : float * float) : bool :=
  existsb (fun entry => same_key (fst entry) k) g.

(** The [data.forEach] loop: the first point of every cell is kept. *)
Definition fillGrid (data : list A) : grid :=
  let latRange := range lat data in
  let lonRange := range lon data in
  fold_left
    (fun g d =>
       let key := gridKey latRange lonRange d in
       if grid_has g key then g else g ++ [(key, d)])
    data [].

(** [sampleData(data, maxPoints = 600)]. *)
Definition sampleData (data : list A) (maxPoints : nat) : list A :=
  if length data <=? maxPoints then data
  else
    let sampledData := map snd (fillGrid data) in
    if maxPoints <? length sampledData then
      let step := Js.ceil_div (length sampledData) maxPoints in
      Js.array_filter (fun _ i => Js.rem_is_zero i step) sampledData
    else sampledData.
End Sampler.

(** A grid in which no two entries have the same key string. *)
Definition separated {A : Type} (g : list ((float * float) * A)) : Prop :=
  forall i j e e',
    i < j -> g !! i = Some e -> g !! j = Some e' ->
    (Js.same_number_string (fst (fst e)) (fst (fst e'))
     && Js.same_number_string (snd (fst e)) (snd (fst e'))) = false.

(** A cell index that lies inside the grid: [0 <= index <= gridSize - 1]. *)
Definition within_grid (index : float) : bool :=
  (0 <=? index)%float && (index <=? gridSize - 1)%float.

(** A point of the wind field, reduced to its coordinates. *)
Record point : Type := Point { lat : float; lon : float }.

(** The points [(4 + k/16, 80 + k/16)] for [k = 0 .. n - 1]: a diagonal
    of the box from (4, 80) to (54, 130) when [n] is 801. *)
Definition diagonal (n : nat) : list point :=
  map (fun k =>
         let t := (Js.float_of_nat k / 16)%float in
         Point (4 + t)%float (80 + t)%float)
      (seq 0 n).

End Windfield.

(** ** [map-canvas-visualization.js] *)

Module MapCanvas.

Section Sampler.
Context {A : Type}.
Variables (lat lon : A -> float).

(** [this.bounds]. *)
Definition minLat : float := 18%float.
Definition maxLat : float := 54%float.
Definition minLon : float := 70%float.
Definition maxLon : float := 140%float.

Definition gridSize : float := 50%float.

Definition cellSize : float := ((maxLat - minLat) / gridSize)%float.

Definition gridKey (d : A) : float * float :=
  (Js.floor ((lat d - minLat) / cellSize)%float,
   Js.floor ((lon d - minLon) / cellSize)%float).

(** The [data.forEach((d, i) => ...)] loop: only every third point is
    looked at, and the first of them in a cell is kept. *)
Definition fillGrid (data : list A) : list ((float * float) * A) :=
  fold_left
    (fun g '(i, d) =>
       if i mod 3 =? 0 then
         let key := gridKey d in
         if existsb (fun entry =>
                       Js.same_number_string (fst (fst entry)) (fst key)
                       && Js.same_number_string (snd (fst entry)) (snd key)) g
         then g else g ++ [(key, d)]
       else g)
    (imap pair data) [].

(** [sampleData(data, maxPoints = 600)]. *)
Definition sampleData (data : list A) (maxPoints : nat) : list A :=
  if length data <=? maxPoints then data
  else
    let sampledData := map snd (fillGrid data) in
    if maxPoints <? length sampledData then
      let step := Js.ceil_div (length sampledData) maxPoints in
      Js.array_filter (fun _ i => Js.rem_is_zero i step) sampledData
    else sampledData.
End Sampler.

End MapCanvas.

(** ** [windfield-visualization.js] *)

Module Windfield3D.

(** The sampling of [draw(data, pollutant)] (the data is not empty):
    [data.filter((d, i) => i % sampleRate === 0)] with
    [sampleRate = Math.ceil(data.length / 800)]. *)
Definition sampledData {A : Type} (data : list A) : list A :=
  let sampleRate := Js.ceil_quot (length data) 800 in
  Js.array_filter (fun _ i => Js.rem_is_zero i (Js.Fin sampleRate)) data.

End Windfield3D.

(** ** [app.js] *)

Module App.

(** [n.toString().padStart(2, "0")] for a count [n]. *)
Definition decimal (n : Z) : string :=
  NilZero.string_of_uint (N.to_uint (Z.to_N n)).

Definition padStart2 (n : Z) : string :=
  (Loader.zeros (2 - String.length (decimal n)) ++ decimal n)%string.

(** [new Date(year, month, 0).getDate()]: the last day of the month. *)
Definition daysInMonth (year month : Z) : Z :=
  let '(_, _, d) := Loader.civil_from_days (Loader.new_Date year month 0) in d.

Definition count_up (first : Z) (n : Z) : list Z :=
  map (fun k => (first + Z.of_nat k)%Z) (seq 0 (Z.to_nat n)).

(** [generateDateList()]: the dates the selector offers. *)
Definition generateDateList : list string :=
  flat_map
    (fun year =>
       flat_map
         (fun month =>
            map (fun day => (decimal year ++ padStart2 month ++ padStart2 day)%string)
                (count_up 1 (daysInMonth year month)))
         (count_up 1 12))
    (count_up 2013 5).

(** The reduction in [loadTimeseriesData]: above 50000 points the series
    is thinned to about 30000. *)
Definition timeseriesFinalData {A : Type} (pollutantData : list A) : list A :=
  if (50000 <? Z.of_nat (length pollutantData))%Z then
    let sampleRate := Js.ceil_quot (length pollutantData) (Z.to_nat 30000) in
    Loader.sampleTimeseriesData pollutantData sampleRate
  else pollutantData.

(** The sample of [loadCorrelationData] (the raw data is not empty). *)
Definition correlationSample {A : Type} (rawData : list A) : list A :=
  let sampleRate := Js.ceil_quot (length rawData) 1000 in
  Js.array_filter (fun _ i => Js.rem_is_zero i (Js.Fin sampleRate)) rawData.

(** [loadCorrelationData()]: the matrix drawn for the raw data, if any. *)
Definition loadCorrelationData (rawData : list Js.object)
  : option (list string * list (list float)) :=
  match rawData with
  | [] => None
  | _ :: _ => Correlation.draw (correlationSample rawData)
  end.

End App.

(** ** [timeseries-visualization.js] *)

Module Timeseries.

Section Aggregate.
(** The points carry a date key [d.date], a string, and a value
    [d.value]. *)
Context {A : Type}.
Variables (date : A -> string) (value : A -> Js.value).

(** [d3.group(data, d => d.date)]: the points of every date, the dates
    in the order of their first appearance. *)
Fixpoint group_add (groups : list (string * list A)) (d : A)
  : list (string * list A) :=
  match groups with
  | [] => [(date d, [d])]
  | (key, members) :: rest =>
      if String.eqb key (date d) then (key, members ++ [d]) :: rest
      else (key, members) :: group_add rest d
  end.

Definition d3_group (data : list A) : list (string * list A) :=
  fold_left group_add data [].

(** Groups that hold the points [l]: every date of [l] has one group,
    with the points of that date in their order in [l]. *)
Definition grouped (g : list (string * list A)) (l : list A) : Prop :=
  NoDup (map fst g) /\
  (forall k ms, In (k, ms) g -> ms = List.filter (fun d => String.eqb (date d) k) l) /\
  (forall d, In d l -> In (date d) (map fst g)) /\
  (forall k, In k (map fst g) -> exists d, In d l /\ date d = k).

(** [d3.mean(values, d => d.value)]: values that are [null] or
    [undefined] or that convert to [NaN] do not count. *)
Definition mean_by (members : list A) : option float :=
  Js.d3_mean
    (map Js.to_number
         (List.filter (fun x => negb (Js.is_nullish x)) (map value members))).

(** [sort((a, b) => a.date.localeCompare(b.date))]: a stable sort; the
    date keys are digit strings, which [localeCompare] orders as their
    characters do. *)
Fixpoint insert_by_date (x : string * option float) (l : list (string * option float))
  : list (string * option float) :=
  match l with
  | [] => [x]
  | y :: rest =>
      if String.leb (fst x) (fst y) then x :: y :: rest
      else y :: insert_by_date x rest
  end.

Definition sort_by_date (l : list (string * option float))
  : list (string * option float) :=
  fold_right insert_by_date [] l.

(** The [aggregatedData] of [draw(data, pollutant)]: one point per date
    with the mean of the values of that date, ascending by date. *)
Definition aggregatedData (data : list A) : list (string * option float) :=
  sort_by_date (map (fun '(key, members) => (key, mean_by members)) (d3_group data)).
End Aggregate.

End Timeseries.

(** ** Facts about index filters *)

Section Stride.
Context {A : Type}.
Variable s : nat.
Hypothesis s_pos : 0 < s.

Let keep : A -> nat -> bool := fun _ i => i mod s =? 0.

Lemma stride_lookup (l : list A) :
  forall i off q,
    off < s -> (i + off) mod s = 0 ->
    Js.filter_from keep i l !! q = l !! (off + q * s).
Proof using s_pos.
  induction l as [|d t IH]; intros i off q Hoff Hmod; [done|].
  cbn [Js.filter_from]. unfold keep at 1.
  destruct off as [|off'].
  - rewrite Nat.add_0_r in Hmod. rewrite Hmod. cbn [Nat.eqb].
    destruct q as [|q']; [done|].
    replace (0 + S q' * s) with (S (s - 1 + q' * s)) by lia.
    apply (IH (S i) (s - 1) q'); [lia|].
    replace (S i + (s - 1)) with (i + 1 * s) by lia.
    by rewrite Nat.Div0.mod_add.
  - assert (i mod s <> 0) as Hne.
    { intros Hz.
      rewrite <- Nat.Div0.add_mod_idemp_l, Hz, Nat.add_0_l in Hmod.
      rewrite Nat.mod_small in Hmod; lia. }
    apply Nat.eqb_neq in Hne. rewrite Hne.
    replace (S off' + q * s) with (S (off' + q * s)) by lia.
    apply (IH (S i) off' q); [lia|].
    by replace (S i + off') with (i + S off') by lia.
Qed.

Lemma stride_length (l : list A) :
  forall i off,
    off < s -> (i + off) mod s = 0 ->
    length (Js.filter_from keep i l) = (length l + s - 1 - off) / s.
Proof using s_pos.
  induction l as [|d t IH]; intros i off Hoff Hmod.
  - cbn. symmetry. apply Nat.div_small. lia.
  - cbn [Js.filter_from length]. unfold keep at 1.
    destruct off as [|off'].
    + rewrite Nat.add_0_r in Hmod. rewrite Hmod. cbn [Nat.eqb length].
      rewrite (IH (S i) (s - 1)).
      * replace (S (length t) + s - 1 - 0) with (length t + 1 * s) by lia.
        replace (length t + s - 1 - (s - 1)) with (length t) by lia.
        rewrite Nat.div_add by lia. lia.
      * lia.
      * replace (S i + (s - 1)) with (i + 1 * s) by lia.
        rewrite Nat.Div0.mod_add. done.
    + assert (i mod s <> 0) as Hne.
      { intros Hz.
        rewrite <- Nat.Div0.add_mod_idemp_l, Hz, Nat.add_0_l in Hmod.
        rewrite Nat.mod_small in Hmod; lia. }
      apply Nat.eqb_neq in Hne. rewrite Hne.
      rewrite (IH (S i) off').
      * f_equal. lia.
      * lia.
      * replace (S i + off') with (i + S off') by lia. done.
Qed.
End Stride.

Lemma rem_is_zero_fin (s i : nat) :
  0 < s -> Js.rem_is_zero i (Js.Fin s) = (i mod s =? 0).
Proof. destruct s; [lia|done]. Qed.

Lemma filter_from_ext {A : Type} (p p' : A -> nat -> bool) (l : list A) :
  forall i, (forall d j, p d j = p' d j) ->
            Js.filter_from p i l = Js.filter_from p' i l.
Proof.
  induction l as [|d t IH]; intros i H; [done|].
  cbn. rewrite H, (IH (S i) H). done.
Qed.

Lemma filter_from_length_le {A : Type} (p : A -> nat -> bool) (l : list A) :
  forall i, length (Js.filter_from p i l) <= length l.
Proof.
  induction l as [|d t IH]; intros i; cbn; [lia|].
  specialize (IH (S i)). destruct (p d i); cbn; lia.
Qed.

(** The stride filter with step [s]: element [q] of the result is element
    [q * s] of the input, and the result has [ceil (n / s)] elements. *)
Lemma stride_filter_spec {A : Type} (s : nat) (l : list A) :
  0 < s ->
  let r := Js.array_filter (fun _ i => Js.rem_is_zero i (Js.Fin s)) l in
  length r = (length l + s - 1) / s /\
  forall q, r !! q = l !! (q * s).
Proof.
  intros Hs r. subst r. unfold Js.array_filter.
  rewrite (filter_from_ext _ (fun _ i => i mod s =? 0))
    by (intros; by apply rem_is_zero_fin).
  split.
  - rewrite (stride_length s Hs l 0 0); [f_equal; lia | lia |].
    by rewrite Nat.Div0.mod_0_l.
  - intros q. rewrite (stride_lookup s Hs l 0 0 q); [done | lia |].
    by rewrite Nat.Div0.mod_0_l.
Qed.




(** ** Checks of the built-in functions *)

Example floor_samples :
  map Js.floor [50; 49.99999; 0.5; -0.5; -3; -3.000001; 4503599627370495.5]%float
  = [50; 49; 0; -1; -3; -4; 4503599627370495]%float.
Proof. vm_compute. reflexivity. Qed.

Example parseFloat_samples :
  map Js.parseFloat ["55"; "30.1"; "0.1"; " 120.2"; "1e-320"; "-Infinity"; "12abc"; ".5"]
  = [55; 30.1; 0.1; 120.2; 1e-320; neg_infinity; 12; 0.5]%float /\
  map Js.parseFloat ["NA"; ""; "abc"; "."] = [nan; nan; nan; nan].
Proof. vm_compute. split; reflexivity. Qed.

Example string_to_number_samples :
  map Js.string_to_number
      ["55"; " 30.1 "; ""; "0x1A"; "1.7976931348623159e308"; "9007199254740993"]
  = [55; 30.1; 0; 26; infinity; 9007199254740992]%float /\
  map Js.string_to_number ["NA"; "12abc"; "1e"; "-0x1"] = [nan; nan; nan; nan].
Proof. vm_compute. split; reflexivity. Qed.

(** The two calendar conversions are inverse on the days from
    2000-01-01 to 2039-12-31. *)
Example civil_days_roundtrip :
  forallb (fun k =>
             let z := (10957 + Z.of_nat k)%Z in
             let '(y, m, d) := Loader.civil_from_days z in
             (Loader.days_from_civil y m d =? z)%Z)
          (seq 0 (Z.to_nat 14610))
  = true /\
  Loader.civil_from_days 10957 = (2000, 1, 1)%Z /\
  Loader.civil_from_days (10957 + 14609) = (2039, 12, 31)%Z.
Proof. vm_compute. repeat split; reflexivity. Qed.

Example formatDate_samples :
  option_map Loader.formatDate (Loader.parseDate "20130105") = Some "20130105"%string /\
  option_map (fun z => Loader.formatDate (z - 5)) (Loader.parseDate "20130105")
  = Some "20121231"%string /\
  option_map (fun z => Loader.formatDate (z - 1)) (Loader.parseDate "20120301")
  = Some "20120229"%string /\
  Loader.parseDate "2013-1-5" = None.
Proof. vm_compute. repeat split; reflexivity. Qed.

Example parseCSV_sample :
  Loader.parseCSV Loader.sample_csv
  = (["lat"; "lon"; "PM2.5(微克每立方米)"; "date"]%string,
     [ [("lat", Js.VNum 30.1); ("lon", Js.VNum 120.2);
        ("PM2.5(微克每立方米)", Js.VNum 55); ("date", Js.VNum 20130101)];
       [("lat", Js.VNum 30.1); ("lon", Js.VNum 120.2);
        ("PM2.5(微克每立方米)", Js.VStr "NA"); ("date", Js.VNum 20130101)];
       [("lat", Js.VNum 30.2); ("lon", Js.VNum 120.3);
        ("PM2.5(微克每立方米)", Js.VNum infinity); ("date", Js.VNum 20130101)] ]%string).
Proof. vm_compute. reflexivity. Qed.

Lemma ceil_div_bound (n k : nat) :
  0 < k -> k < n ->
  0 < (n + k - 1) / k /\
  (n + ((n + k - 1) / k) - 1) / ((n + k - 1) / k) <= k.
Proof.
  intros Hk Hn.
  pose proof (Nat.div_mod (n + k - 1) k ltac:(lia)) as Hdm.
  pose proof (Nat.mod_upper_bound (n + k - 1) k ltac:(lia)) as Hr.
  set (s := (n + k - 1) / k) in *.
  assert (n <= k * s) as Hcover by lia.
  assert (0 < s) as Hs by (destruct s; [lia | lia]).
  split; [done|].
  apply Nat.lt_succ_r.
  apply Nat.Div0.div_lt_upper_bound. nia.
Qed.

(** The stride reduction used by both samplers stays within the budget. *)
Lemma stride_within_budget {A : Type} (l : list A) (maxPoints : nat) :
  0 < maxPoints -> maxPoints < length l ->
  length (Js.array_filter
            (fun _ i => Js.rem_is_zero i (Js.ceil_div (length l) maxPoints)) l)
  <= maxPoints.
Proof.
  intros Hk Hn. unfold Js.ceil_div.
  destruct maxPoints as [|k']; [lia|].
  destruct (ceil_div_bound (length l) (S k') Hk Hn) as [Hs Hle].
  destruct (stride_filter_spec ((length l + S k' - 1) / S k') l Hs) as [Hlen _].
  rewrite Hlen. exact Hle.
Qed.

(** ** The time-series downsampler *)

(** C10: an input of at most 10000 elements is returned as it is, for
    every sampling rate; a longer input is reduced with a fixed stride:
    element [q] of the result is element [q * sampleRate] of the input,
    so exactly the elements at the indices divisible by the rate are
    kept, in their original order. *)
Theorem sampleTimeseriesData_stride {A : Type} (data : list A) (sampleRate : nat) :
  ((Z.of_nat (length data) <= 10000)%Z ->
   Loader.sampleTimeseriesData data sampleRate = data) /\
  ((10000 < Z.of_nat (length data))%Z -> 0 < sampleRate ->
   length (Loader.sampleTimeseriesData data sampleRate)
   = (length data + sampleRate - 1) / sampleRate /\
   forall q, Loader.sampleTimeseriesData data sampleRate !! q
             = data !! (q * sampleRate)).
Proof.
  unfold Loader.sampleTimeseriesData. split.
  - intros Hshort. apply Z.leb_le in Hshort. by rewrite Hshort.
  - intros Hlong Hrate. apply Z.leb_gt in Hlong. rewrite Hlong.
    by apply stride_filter_spec.
Qed.

(** With rate 0 every [i % 0] is [NaN], and a long input loses all its
    elements. *)
Lemma sampleTimeseriesData_rate_zero {A : Type} (data : list A) :
  (10000 < Z.of_nat (length data))%Z ->
  Loader.sampleTimeseriesData data 0 = [].
Proof.
  intros Hlong. unfold Loader.sampleTimeseriesData, Js.array_filter.
  apply Z.leb_gt in Hlong. rewrite Hlong. clear Hlong.
  assert (forall i,
            Js.filter_from (fun (_ : A) j => Js.rem_is_zero j (Js.Fin 0)) i data = [])
    as Hnone; [|apply Hnone].
  induction data as [|x rest IH]; intros i; [done|]. cbn. apply IH.
Qed.

Lemma sampleTimeseriesData_stride_witness :
  Loader.sampleTimeseriesData [3; 1; 4] 10 = [3; 1; 4] /\
  length (Loader.sampleTimeseriesData (seq 0 (Z.to_nat 10001)) 10) = 1001 /\
  Loader.sampleTimeseriesData (seq 0 (Z.to_nat 10001)) 10 !! 7 = Some 70.
Proof.
  split.
  - apply (sampleTimeseriesData_stride [3; 1; 4] 10). cbn. lia.
  - assert ((10000 < Z.of_nat (length (seq 0 (Z.to_nat 10001))))%Z) as Hlong
      by (rewrite length_seq; lia).
    destruct (sampleTimeseriesData_stride (seq 0 (Z.to_nat 10001)) 10)
      as [_ Hstride].
    destruct (Hstride Hlong ltac:(lia)) as [Hlen Hget].
    split.
    + rewrite Hlen. rewrite length_seq. vm_compute. reflexivity.
    + rewrite Hget. vm_compute. reflexivity.
Defined.

(** ** The spatial samplers *)

(** C7: for a positive budget, [sampleData] returns at most [maxPoints]
    elements, and returns its input unchanged when the input is within
    the budget; this holds for the grid sampler of the wind field and
    for the stride sampler of the loader. *)
Theorem sampleData_within_budget {A : Type} (lat lon : A -> float)
  (data : list A) (maxPoints : nat) :
  0 < maxPoints ->
  length (Windfield.sampleData lat lon data maxPoints) <= maxPoints /\
  length (Loader.sampleData data maxPoints) <= maxPoints /\
  (length data <= maxPoints ->
   Windfield.sampleData lat lon data maxPoints = data /\
   Loader.sampleData data maxPoints = data).
Proof.
  intros Hpos. unfold Windfield.sampleData, Loader.sampleData.
  destruct (length data <=? maxPoints) eqn:Hsmall.
  - apply Nat.leb_le in Hsmall. done.
  - apply Nat.leb_gt in Hsmall. repeat split.
    + cbv zeta.
      destruct (maxPoints <? length (map snd (Windfield.fillGrid lat lon data)))
        eqn:Hmany.
      * apply Nat.ltb_lt in Hmany. by apply stride_within_budget.
      * by apply Nat.ltb_ge in Hmany.
    + by apply stride_within_budget.
    + lia.
    + lia.
Qed.

Lemma sampleData_within_budget_witness :
  0 < 600 /\
  length (Windfield.sampleData Windfield.lat Windfield.lon
            (Windfield.diagonal 801) 600) <= 600 /\
  length (Loader.sampleData (Windfield.diagonal 801) 600) <= 600.
Proof.
  assert (0 < 600) as Hpos by lia.
  split; [exact Hpos|].
  destruct (sampleData_within_budget Windfield.lat Windfield.lon
              (Windfield.diagonal 801) 600 Hpos) as (Hgrid & Hstride & _).
  split; [exact Hgrid | exact Hstride].
Defined.

(** C6: on the 801 points of the diagonal from (4, 80) to (54, 130) the
    cells are one degree wide, and the point on the upper boundary of
    both axes gets cell index [gridSize] (50), outside [0, gridSize - 1]:
    the grid holds 51 different indices per axis. *)
Theorem gridIndex_overflows_at_upper_bound :
  let data := Windfield.diagonal 801 in
  let latRange := Windfield.range Windfield.lat data in
  let lonRange := Windfield.range Windfield.lon data in
  length data = 801 /\
  latRange = (4%float, 54%float) /\
  lonRange = (80%float, 130%float) /\
  last data = Some (Windfield.Point 54 130) /\
  Windfield.gridKey Windfield.lat Windfield.lon latRange lonRange
    (Windfield.Point 54 130) = (50%float, 50%float) /\
  Windfield.within_grid 50 = false /\
  map fst (Windfield.fillGrid Windfield.lat Windfield.lon data)
  = map (fun k => (Js.float_of_nat k, Js.float_of_nat k)) (seq 0 51) /\
  length (Windfield.sampleData Windfield.lat Windfield.lon data 600) = 51.
Proof. vm_compute. repeat split; reflexivity. Qed.

(** ** The date walk of the temporal aggregator *)

Lemma walkBack_more_fuel (fuel : nat) :
  forall currentDate endDate acc,
    (currentDate - endDate < Z.of_nat fuel)%Z ->
    Loader.walkBack (S fuel) currentDate endDate acc
    = Loader.walkBack fuel currentDate endDate acc.
Proof.
  induction fuel as [|fuel IH]; intros currentDate endDate acc Hfuel.
  - cbn [Loader.walkBack].
    destruct (endDate <=? currentDate)%Z eqn:Hcond; [|done].
    apply Z.leb_le in Hcond. lia.
  - change (Loader.walkBack (S (S fuel)) currentDate endDate acc)
      with (if (endDate <=? currentDate)%Z then
              if String.ltb (Loader.formatDate currentDate) "20130101"
              then acc ++ [Loader.formatDate currentDate]
              else Loader.walkBack (S fuel) (currentDate - 1) endDate
                     (acc ++ [Loader.formatDate currentDate])
            else acc).
    cbn [Loader.walkBack].
    destruct (endDate <=? currentDate)%Z; [|done].
    destruct (String.ltb _ _); [done|].
    apply IH. lia.
Qed.

(** The loop of [loadConsecutiveDays] ends by its own condition: the
    [days + 1] iterations given to it are never exhausted early. *)
Lemma availableDates_fuel (start : Z) (days extra : nat) :
  Loader.walkBack (S days + extra) start (start - Z.of_nat days) []
  = Loader.walkBack (S days) start (start - Z.of_nat days) [].
Proof.
  induction extra as [|extra IH].
  - by rewrite Nat.add_0_r.
  - replace (S days + S extra) with (S (S days + extra)) by lia.
    rewrite walkBack_more_fuel by lia. exact IH.
Qed.

(** C4: for start date 20130105 and 10 days the walk lists six dates,
    the last of them 20121231, one day before the lower bound, and a
    load is issued for that date as for the others. *)
Theorem availableDates_crosses_lower_bound :
  Loader.availableDates "20130105" 10
  = Some ["20130105"; "20130104"; "20130103"; "20130102"; "20130101";
          "20121231"] /\
  String.ltb "20121231" "20130101" = true /\
  last (Loader.issued
          (Loader.loadPromises
             ["20130105"; "20130104"; "20130103"; "20130102"; "20130101";
              "20121231"]
             (Loader.Pool [] (Loader.new_DataLoader None) [])))
  = Some "./Dataset/201212/CN-Reanalysis-daily-2012123100.csv".
Proof. vm_compute. repeat split; reflexivity. Qed.

(** ** The statistics engine *)

(** C1: on three records of which the first lacks PM10 and the third
    lacks PM2.5, the matrix cell for the two variables is the coefficient
    of the independently filtered columns [1, 2] and [10, 20], which is
    1; the only record in which both variables resolve gives the single
    pair (2, 10), whose coefficient is 0. *)
Theorem correlationMatrix_pairs_filtered_columns :
  Correlation.column Correlation.gappy_records "PM2.5" = [1; 2]%float /\
  Correlation.column Correlation.gappy_records "PM10" = [10; 20]%float /\
  Correlation.computeCorrelationMatrix Correlation.gappy_records ["PM2.5"; "PM10"]
  = [[1; 1]; [1; 1]]%float /\
  Correlation.paired_values Correlation.gappy_records "PM2.5" "PM10"
  = [(2, 10)]%float /\
  Correlation.paired_correlation Correlation.gappy_records "PM2.5" "PM10"
  = 0%float.
Proof. vm_compute. repeat split; reflexivity. Qed.

(** What every off-diagonal cell of the matrix is: the coefficient of the
    two columns, each filtered on its own. *)
Lemma computeCorrelationMatrix_cell (data : list Js.object) (variables : list string)
  (i j : nat) (vi vj : string) :
  variables !! i = Some vi -> variables !! j = Some vj ->
  Correlation.computeCorrelationMatrix data variables !! i ≫= (.!! j)
  = Some (if i =? j then 1%float
          else Correlation.correlation (Correlation.column data vi)
                                       (Correlation.column data vj)).
Proof.
  intros Hi Hj. unfold Correlation.computeCorrelationMatrix.
  rewrite list_lookup_imap, Hi. cbn.
  by rewrite list_lookup_imap, Hj.
Qed.

Lemma zero_product_sums (a b : float) :
  Correlation.is_zero_float a -> Correlation.is_zero_float b ->
  (0 + a * b)%float = 0%float.
Proof. intros [-> | ->] [-> | ->]; vm_compute; reflexivity. Qed.

Lemma deviations_all_zero (mx my : float) (l : list (float * float)) :
  Forall (fun p => Correlation.is_zero_float (fst p - mx)%float
                   /\ Correlation.is_zero_float (snd p - my)%float) l ->
  fold_left
    (fun '(numerator, sumSqX, sumSqY) '(xi, yi) =>
       let dx := (xi - mx)%float in
       let dy := (yi - my)%float in
       ((numerator + dx * dy)%float,
        (sumSqX + dx * dx)%float,
        (sumSqY + dy * dy)%float))
    l (0%float, 0%float, 0%float)
  = (0%float, 0%float, 0%float).
Proof.
  induction 1 as [|[xi yi] l [Hx Hy] _ IH]; [done|].
  cbn [fold_left fst snd] in *.
  rewrite !zero_product_sums by assumption. exact IH.
Qed.

Lemma combine_Forall {A B : Type} (P : A -> Prop) (Q : B -> Prop)
  (x : list A) (y : list B) :
  Forall P x -> Forall Q y -> Forall (fun p => P (fst p) /\ Q (snd p)) (combine x y).
Proof.
  intros Hx. revert y. induction Hx as [|a x Ha _ IH]; intros y Hy; [constructor|].
  destruct Hy as [|b y Hb Hy]; cbn; constructor; auto.
Qed.

(** C8 (counterexample): three copies of 0.1 form a constant column, yet
    its computed mean is 0.10000000000000002, the deviations are not
    zero, and the coefficient of two such columns is 1; three records with
    the constant readings 0.1 and 0.7 get the matrix cell -1. *)
Lemma correlation_constant_columns_one :
  Js.d3_mean [0.1; 0.1; 0.1]%float = Some 0.10000000000000002%float /\
  Correlation.correlation [0.1; 0.1; 0.1]%float [0.1; 0.1; 0.1]%float = 1%float /\
  Correlation.correlation [0.1; 0.1; 0.1]%float [0.1; 0.1; 0.1]%float <> 0%float /\
  Correlation.computeCorrelationMatrix Correlation.constant_records ["PM2.5"; "PM10"]
  = [[1; -1]; [-1; 1]]%float.
Proof.
  repeat split; try (vm_compute; reflexivity).
  intros H. apply (f_equal (fun z => PrimFloat.Leibniz.eqb z 0)) in H.
  vm_compute in H. discriminate H.
Qed.

(** C8 (amended): whenever the product of the two computed sums of
    squared deviations is zero, the coefficient is exactly 0; and two
    columns all of whose computed deviations from the mean are zero, as
    for constant columns whose mean is computed exactly, have
    coefficient 0. *)
Theorem correlation_zero_denominator (x y : list float) :
  (forall numerator sumSqX sumSqY,
     Correlation.deviations x y = (numerator, sumSqX, sumSqY) ->
     Correlation.is_zero_float (sumSqX * sumSqY)%float ->
     Correlation.correlation x y = 0%float) /\
  (Forall (fun xi => Correlation.is_zero_float
                       (xi - Js.num_or_nan (Js.d3_mean x))%float) x ->
   Forall (fun yi => Correlation.is_zero_float
                       (yi - Js.num_or_nan (Js.d3_mean y))%float) y ->
   Correlation.correlation x y = 0%float).
Proof.
  split.
  - intros numerator sumSqX sumSqY Hdev Hzero.
    unfold Correlation.correlation. rewrite Hdev.
    destruct (negb (length x =? length y) || (length x =? 0)); [done|].
    destruct Hzero as [-> | ->]; vm_compute; reflexivity.
  - intros Hx Hy. unfold Correlation.correlation, Correlation.deviations.
    destruct (negb (length x =? length y) || (length x =? 0)); [done|].
    rewrite deviations_all_zero.
    + vm_compute. reflexivity.
    + exact (combine_Forall _ _ x y Hx Hy).
Qed.

Lemma correlation_zero_denominator_witness :
  Correlation.deviations [5; 5; 5]%float [7; 7; 7]%float = (0, 0, 0)%float /\
  Correlation.is_zero_float (0 * 0)%float /\
  Correlation.correlation [5; 5; 5]%float [7; 7; 7]%float = 0%float.
Proof.
  assert (Correlation.deviations [5; 5; 5]%float [7; 7; 7]%float
          = (0, 0, 0)%float) as Hdev by (vm_compute; reflexivity).
  assert (Correlation.is_zero_float (0 * 0)%float) as Hzero
    by (left; vm_compute; reflexivity).
  split; [exact Hdev|]. split; [exact Hzero|].
  exact (proj1 (correlation_zero_denominator [5; 5; 5]%float [7; 7; 7]%float)
           _ _ _ Hdev Hzero).
Defined.

(** ** The field resolver *)




(** ** Running asynchronous code *)

Lemma run_bind {A B : Type} (net : Loader.network) (m : Loader.Async A)
  (f : A -> Loader.Async B) :
  forall st log,
    Loader.run net (m ≫= f) st log
    = let '(a, st', log') := Loader.run net m st log in Loader.run net (f a) st' log'.
Proof.
  induction m as [a | k IH | s k IH | url k IH]; intros st log; cbn.
  - done.
  - apply IH.
  - apply IH.
  - apply IH.
Qed.

Lemma run_get (net : Loader.network) st log :
  Loader.run net Loader.get st log = (st, st, log).
Proof. done. Qed.

Lemma run_put (net : Loader.network) s st log :
  Loader.run net (Loader.put s) st log = (tt, s, log).
Proof. done. Qed.

Lemma run_fetch (net : Loader.network) url st log :
  Loader.run net (Loader.fetch url) st log = (net url, st, log ++ [url]).
Proof. done. Qed.

Lemma run_ret {A : Type} (net : Loader.network) (a : A) st log :
  Loader.run net (mret a) st log = (a, st, log).
Proof. done. Qed.

Lemma run_new_array (net : Loader.network) rows st log :
  Loader.run net (Loader.new_array rows) st log
  = (Loader.Array (Loader.allocated st) rows,
     Loader.State (Loader.dataCache st) (Loader.basePath st)
                  (Loader.resolvedBasePath st) (S (Loader.allocated st)),
     log).
Proof. done. Qed.

Lemma run_loadCSVFile_fail (net : Loader.network) filePath st log :
  Loader.response_ok (net filePath) = false ->
  Loader.run net (Loader.loadCSVFile filePath) st log = (None, st, log ++ [filePath]).
Proof.
  intros Hfail. unfold Loader.loadCSVFile.
  rewrite run_bind, run_fetch.
  destruct (net filePath) as [|[|] body]; try done.
Qed.

Lemma run_loadCSVFile_ok (net : Loader.network) filePath st log :
  Loader.response_ok (net filePath) = true ->
  exists headers rows,
    Loader.run net (Loader.loadCSVFile filePath) st log
    = (Some (headers, Loader.Array (Loader.allocated st) rows),
       Loader.State (Loader.dataCache st) (Loader.basePath st)
                    (Loader.resolvedBasePath st) (S (Loader.allocated st)),
       log ++ [filePath]).
Proof.
  intros Hok. unfold Loader.loadCSVFile.
  rewrite run_bind, run_fetch.
  destruct (net filePath) as [|[|] body]; try done.
  destruct (Loader.parseCSV body) as [headers rows].
  exists headers, rows. by rewrite run_bind, run_new_array.
Qed.

(** ** The dataset locator *)

Lemma with_slash_nonempty (path : string) :
  String.eqb (Loader.with_slash path) "" = false.
Proof.
  unfold Loader.with_slash. destruct path as [|c rest]; [done|].
  by destruct (Js.ends_with _ _).
Qed.

Lemma run_probe_all_fail (net : Loader.network) (relative : string) roots :
  forall st log,
    Forall (fun root => Loader.response_ok (net (Loader.testUrl relative root)) = false)
           roots ->
    Loader.run net (Loader.probe relative roots) st log
    = (Loader.basePath st, st, log ++ map (Loader.testUrl relative) roots).
Proof.
  induction roots as [|root rest IH]; intros st log Hfail.
  - cbn. by rewrite app_nil_r.
  - apply Forall_cons in Hfail as [Hroot Hrest].
    cbn [Loader.probe]. rewrite run_bind, run_fetch, Hroot.
    rewrite IH by done. cbn [map]. by rewrite <- app_assoc.
Qed.

Lemma run_probe_first_ok (net : Loader.network) (relative : string) pre :
  forall root post st log,
    Forall (fun r => Loader.response_ok (net (Loader.testUrl relative r)) = false) pre ->
    Loader.response_ok (net (Loader.testUrl relative root)) = true ->
    Loader.run net (Loader.probe relative (pre ++ root :: post)) st log
    = (Loader.with_slash root,
       Loader.State (Loader.dataCache st) (Loader.with_slash root)
                    (Some (Loader.with_slash root)) (Loader.allocated st),
       log ++ map (Loader.testUrl relative) (pre ++ [root])).
Proof.
  induction pre as [|r pre IH]; intros root post st log Hfail Hok.
  - cbn [app Loader.probe map]. by rewrite run_bind, run_fetch, Hok.
  - apply Forall_cons in Hfail as [Hr Hpre].
    cbn [app Loader.probe]. rewrite run_bind, run_fetch, Hr.
    rewrite IH by done. cbn [map app]. by rewrite <- app_assoc.
Qed.

Lemma run_resolve_resolved (net : Loader.network) d st log :
  Loader.isResolved st = true ->
  exists r, Loader.resolvedBasePath st = Some r /\
            Loader.run net (Loader.resolveBasePathIfNeeded d) st log = (r, st, log).
Proof.
  unfold Loader.isResolved, Loader.resolveBasePathIfNeeded. intros Hres.
  destruct (Loader.resolvedBasePath st) as [r|] eqn:Hr; [|done].
  exists r. split; [done|]. rewrite run_bind, run_get, Hr.
  apply negb_true_iff in Hres. by rewrite Hres.
Qed.

Lemma run_resolve_unresolved (net : Loader.network) d st log :
  Loader.isResolved st = false ->
  Loader.run net (Loader.resolveBasePathIfNeeded d) st log
  = Loader.run net (Loader.probe (Loader.relativePath d) (Loader.candidates st)) st log.
Proof.
  unfold Loader.isResolved, Loader.resolveBasePathIfNeeded. intros Hres.
  rewrite run_bind, run_get.
  destruct (Loader.resolvedBasePath st) as [r|]; [|done].
  apply negb_false_iff in Hres. by rewrite Hres.
Qed.

(** C9: while no root is resolved, the locator fetches the test URL of
    the candidates in their listed order (the current setting, then the
    five fallback roots), one fetch each, up to the first candidate that
    answers successfully; that root is stored in both fields, and later
    calls return it without any fetch. When every candidate fails, all six
    are fetched once, in order, and the loader is left unchanged. *)
Theorem resolveBasePath_probes_in_order (net : Loader.network) (d : string)
  (st : Loader.state) (log : list string) :
  Loader.isResolved st = false ->
  let url := Loader.testUrl (Loader.relativePath d) in
  let failing := fun root => Loader.response_ok (net (url root)) = false in
  Loader.candidates st
  = [Loader.basePath st; "./Dataset/"; "./dataset/"; "./data/"; "/Dataset/"; "/data/"] /\
  (forall pre root post,
     Loader.candidates st = pre ++ root :: post ->
     Forall failing pre ->
     Loader.response_ok (net (url root)) = true ->
     let adopted :=
       Loader.State (Loader.dataCache st) (Loader.with_slash root)
                    (Some (Loader.with_slash root)) (Loader.allocated st) in
     Loader.run net (Loader.resolveBasePathIfNeeded d) st log
     = (Loader.with_slash root, adopted, log ++ map url (pre ++ [root])) /\
     forall net' d' log',
       Loader.run net' (Loader.resolveBasePathIfNeeded d') adopted log'
       = (Loader.with_slash root, adopted, log')) /\
  (Forall failing (Loader.candidates st) ->
   Loader.run net (Loader.resolveBasePathIfNeeded d) st log
   = (Loader.basePath st, st, log ++ map url (Loader.candidates st))).
Proof.
  intros Hunresolved url failing. split; [done|]. split.
  - intros pre root post Hsplit Hpre Hok adopted. split.
    + rewrite run_resolve_unresolved by done. rewrite Hsplit.
      by apply run_probe_first_ok.
    + intros net' d' log'.
      destruct (run_resolve_resolved net' d' adopted log') as (r & Hr & Hrun).
      * cbn. by rewrite with_slash_nonempty.
      * cbn in Hr. injection Hr as <-. exact Hrun.
  - intros Hall. rewrite run_resolve_unresolved by done.
    by apply run_probe_all_fail.
Qed.

Lemma resolveBasePath_probes_in_order_witness :
  let st := Loader.new_DataLoader None in
  let d := "20130101"%string in
  let adopted := Loader.State ∅ "./dataset/" (Some "./dataset/"%string) 0 in
  Loader.isResolved st = false /\
  Loader.run Loader.lowercase_network (Loader.resolveBasePathIfNeeded d) st []
  = ("./dataset/"%string, adopted,
     ["./Dataset/201301/CN-Reanalysis-daily-2013010100.csv";
      "./Dataset/201301/CN-Reanalysis-daily-2013010100.csv";
      "./dataset/201301/CN-Reanalysis-daily-2013010100.csv"]%string) /\
  Loader.run Loader.down_network (Loader.resolveBasePathIfNeeded d) st []
  = (Loader.basePath st, st,
     map (Loader.testUrl (Loader.relativePath d)) (Loader.candidates st)).
Proof.
  intros st d adopted.
  assert (Loader.isResolved st = false) as Hunresolved by reflexivity.
  split; [exact Hunresolved|].
  destruct (resolveBasePath_probes_in_order Loader.lowercase_network d st []
              Hunresolved) as (_ & Hfirst & _).
  destruct (resolveBasePath_probes_in_order Loader.down_network d st []
              Hunresolved) as (_ & _ & Hnone).
  split.
  - refine (proj1 (Hfirst ["./Dataset/"; "./Dataset/"]%string "./dataset/"%string
                     ["./data/"; "/Dataset/"; "/data/"]%string _ _ _)).
    + reflexivity.
    + repeat constructor.
    + reflexivity.
  - apply Hnone. repeat constructor.
Defined.

(** ** The day loader and its cache *)


Lemma dayPath_fields (st st' : Loader.state) d :
  Loader.basePath st' = Loader.basePath st ->
  Loader.resolvedBasePath st' = Loader.resolvedBasePath st ->
  Loader.dayPath st' d = Loader.dayPath st d.
Proof.
  intros Hbase Hres. unfold Loader.dayPath, Loader.currentRoot.
  by rewrite Hbase, Hres.
Qed.

(** The fetches of a call whose two attempts fail. *)
Lemma run_loadDayData_fail (net : Loader.network) d st log :
  Loader.dataCache st !! d = None ->
  Loader.response_ok (net (Loader.dayPath st d)) = false ->
  Loader.isResolved st = true
  \/ Forall (fun root =>
               Loader.response_ok
                 (net (Loader.testUrl (Loader.relativePath d) root)) = false)
            (Loader.candidates st) ->
  Loader.run net (Loader.loadDayData d) st log
  = (Loader.Array (Loader.allocated st) [],
     Loader.State (Loader.dataCache st) (Loader.basePath st)
                  (Loader.resolvedBasePath st) (S (Loader.allocated st)),
     (log ++ [Loader.dayPath st d])
     ++ (if Loader.isResolved st then []
         else map (Loader.testUrl (Loader.relativePath d)) (Loader.candidates st))
     ++ [Loader.dayPath st d]).
Proof.
  intros Hmiss Hfirst Hretry. unfold Loader.loadDayData.
  rewrite run_bind, run_get, Hmiss.
  rewrite run_bind, run_loadCSVFile_fail by done.
  rewrite run_bind, run_bind.
  destruct (Loader.isResolved st) eqn:Hres.
  - destruct (run_resolve_resolved net d st (log ++ [Loader.dayPath st d]) Hres)
      as (r & _ & ->).
    rewrite run_bind, run_get, run_loadCSVFile_fail by done.
    rewrite run_new_array. by rewrite app_nil_l.
  - destruct Hretry as [|Hall]; [done|].
    rewrite run_resolve_unresolved, run_probe_all_fail by done.
    rewrite run_bind, run_get, run_loadCSVFile_fail by done.
    rewrite run_new_array. by rewrite <- app_assoc.
Qed.

(** C2 (counterexample): with every request failing, the first call for
    20130101 returns an empty array and leaves the cache without an entry
    for the date; the second call is no cache hit: it issues eight
    fetches again and returns another empty array. *)
Lemma loadDayData_failure_refetches :
  let '(a, st1, log1) :=
    Loader.run Loader.down_network (Loader.loadDayData "20130101")
               (Loader.new_DataLoader None) [] in
  let '(b, st2, log2) :=
    Loader.run Loader.down_network (Loader.loadDayData "20130101") st1 [] in
  Loader.items a = [] /\
  Loader.dataCache st1 !! "20130101"%string = None /\
  length log2 = 8 /\
  Loader.fetch_count "./Dataset/201301/CN-Reanalysis-daily-2013010100.csv" log2 = 4 /\
  Loader.array_id a = 0 /\ Loader.array_id b = 1.
Proof. vm_compute. repeat split; reflexivity. Qed.

(** C2 (amended): when the first attempt fails and the retry after root
    re-resolution fails too, [loadDayData] returns a new empty array and
    stores nothing: the cache still has no entry for the date, and the
    next call for the same date issues the same fetches again and returns
    another new empty array. *)
Theorem loadDayData_failure_not_cached (net : Loader.network) (d : string)
  (st : Loader.state) :
  Loader.dataCache st !! d = None ->
  Loader.response_ok (net (Loader.dayPath st d)) = false ->
  Loader.isResolved st = true
  \/ Forall (fun root =>
               Loader.response_ok
                 (net (Loader.testUrl (Loader.relativePath d) root)) = false)
            (Loader.candidates st) ->
  let fetches :=
    [Loader.dayPath st d]
    ++ (if Loader.isResolved st then []
        else map (Loader.testUrl (Loader.relativePath d)) (Loader.candidates st))
    ++ [Loader.dayPath st d] in
  let after n :=
    Loader.State (Loader.dataCache st) (Loader.basePath st)
                 (Loader.resolvedBasePath st) (n + Loader.allocated st) in
  Loader.run net (Loader.loadDayData d) st []
  = (Loader.Array (Loader.allocated st) [], after 1, fetches) /\
  Loader.dataCache (after 1) !! d = None /\
  Loader.run net (Loader.loadDayData d) (after 1) []
  = (Loader.Array (S (Loader.allocated st)) [], after 2, fetches).
Proof.
  intros Hmiss Hfirst Hretry fetches after.
  split; [|split].
  - by rewrite run_loadDayData_fail.
  - done.
  - by rewrite run_loadDayData_fail.
Qed.

Lemma loadDayData_failure_not_cached_witness :
  let st := Loader.new_DataLoader None in
  let d := "20130101"%string in
  Loader.dataCache st !! d = None /\
  Loader.response_ok (Loader.down_network (Loader.dayPath st d)) = false /\
  Loader.dataCache
    (Loader.State (Loader.dataCache st) (Loader.basePath st)
                  (Loader.resolvedBasePath st) (1 + Loader.allocated st)) !! d
  = None.
Proof.
  intros st d.
  assert (Loader.dataCache st !! d = None) as Hmiss by reflexivity.
  assert (Loader.response_ok (Loader.down_network (Loader.dayPath st d)) = false)
    as Hfirst by reflexivity.
  split; [exact Hmiss|]. split; [exact Hfirst|].
  refine (proj1 (proj2 (loadDayData_failure_not_cached
                          Loader.down_network d st Hmiss Hfirst _))).
  right. repeat constructor.
Defined.




(** ** Further properties of the samplers *)

Lemma filter_from_sublist {A : Type} (p : A -> nat -> bool) (l : list A) :
  forall i, sublist (Js.filter_from p i l) l.
Proof.
  induction l as [|x rest IH]; intros i; cbn; [constructor|].
  destruct (p x i); [apply sublist_skip | apply sublist_cons]; apply IH.
Qed.

Lemma filter_from_all {A : Type} (p : A -> nat -> bool) (l : list A) :
  forall i, (forall x j, p x j = true) -> Js.filter_from p i l = l.
Proof.
  induction l as [|x rest IH]; intros i Hall; cbn; [done|].
  by rewrite Hall, IH.
Qed.

Lemma ceil_quot_small (n k : nat) : 0 < n -> n <= k -> Js.ceil_quot n k = 1.
Proof.
  intros Hn Hk. unfold Js.ceil_quot.
  replace (n + k - 1) with ((n - 1) + 1 * k) by lia.
  rewrite Nat.div_add by lia. rewrite Nat.div_small by lia. done.
Qed.

(** Keeping the indices divisible by [ceil (n / k)] leaves at most [k]
    elements, and all of them when there are at most [k]. *)
Lemma stride_cap {A : Type} (data : list A) (k : nat) :
  0 < k ->
  let r := Js.array_filter
             (fun _ i => Js.rem_is_zero i (Js.Fin (Js.ceil_quot (length data) k)))
             data in
  length r <= k /\ (length data <= k -> r = data) /\ sublist r data.
Proof.
  intros Hk r. subst r.
  assert (length data <= k ->
          Js.array_filter
            (fun _ i => Js.rem_is_zero i (Js.Fin (Js.ceil_quot (length data) k)))
            data = data) as Hsmall.
  { intros Hle. destruct data as [|x rest]; [done|].
    rewrite ceil_quot_small by (cbn in *; lia).
    apply filter_from_all. intros _ j.
    change ((j mod 1 =? 0) = true). by rewrite Nat.mod_1_r. }
  split; [|split].
  - destruct (Nat.le_gt_cases (length data) k) as [Hle|Hgt].
    + by rewrite Hsmall.
    + pose proof (stride_within_budget data k Hk Hgt) as Hbudget.
      unfold Js.ceil_div in Hbudget. destruct k; [lia|]. exact Hbudget.
  - exact Hsmall.
  - apply filter_from_sublist.
Qed.

(** X1: the 3D wind field draws at most 800 arrows: its stride sample
    has at most 800 elements, is the whole input when that has at most
    800 elements, and keeps the input order. *)
Theorem windfield3d_sample_bound {A : Type} (data : list A) :
  length (Windfield3D.sampledData data) <= 800 /\
  (length data <= 800 -> Windfield3D.sampledData data = data) /\
  sublist (Windfield3D.sampledData data) data.
Proof. apply (stride_cap data 800). lia. Qed.

(** X2: the correlation view analyses at most 1000 records: its stride
    sample has at most 1000 elements, is the whole input when that has at
    most 1000 elements, and keeps the input order. *)
Theorem correlationSample_bound {A : Type} (rawData : list A) :
  length (App.correlationSample rawData) <= 1000 /\
  (length rawData <= 1000 -> App.correlationSample rawData = rawData) /\
  sublist (App.correlationSample rawData) rawData.
Proof. apply (stride_cap rawData 1000). lia. Qed.

(** X3: the series handed to the time-series chart is the extracted
    series itself up to 50000 points; above that it is thinned with the
    stride [ceil (n / 30000)], which leaves at most 30000 points, element
    [q] of the result being element [q * stride] of the input. *)
Theorem timeseriesFinalData_size {A : Type} (pollutantData : list A) :
  let n := length pollutantData in
  let stride := Js.ceil_quot n (Z.to_nat 30000) in
  ((Z.of_nat n <= 50000)%Z -> App.timeseriesFinalData pollutantData = pollutantData) /\
  ((50000 < Z.of_nat n)%Z ->
   (Z.of_nat (length (App.timeseriesFinalData pollutantData)) <= 30000)%Z /\
   forall q, App.timeseriesFinalData pollutantData !! q
             = pollutantData !! (q * stride)).
Proof.
  intros n stride. unfold App.timeseriesFinalData. fold n. split.
  - intros Hsmall. apply Z.ltb_ge in Hsmall. by rewrite Hsmall.
  - intros Hlarge. pose proof Hlarge as Hlt. apply Z.ltb_lt in Hlt. rewrite Hlt.
    fold stride.
    assert (0 < stride) as Hstride.
    { unfold stride, Js.ceil_quot. apply Nat.div_str_pos. lia. }
    unfold Loader.sampleTimeseriesData.
    assert ((Z.of_nat (length pollutantData) <=? 10000)%Z = false) as ->
      by (apply Z.leb_gt; lia).
    destruct (stride_filter_spec stride pollutantData Hstride) as [Hlen Hget].
    split; [|exact Hget].
    rewrite Hlen. fold n.
    destruct (ceil_div_bound n (Z.to_nat 30000) ltac:(lia) ltac:(lia)) as [_ Hle].
    fold (Js.ceil_quot n (Z.to_nat 30000)) in Hle. fold stride in Hle. lia.
Qed.

Lemma timeseriesFinalData_size_witness :
  App.timeseriesFinalData [3; 1; 4] = [3; 1; 4] /\
  (Z.of_nat (length (App.timeseriesFinalData (seq 0 (Z.to_nat 60001)))) <= 30000)%Z.
Proof.
  split.
  - apply (timeseriesFinalData_size [3; 1; 4]). cbn. lia.
  - apply (timeseriesFinalData_size (seq 0 (Z.to_nat 60001))).
    rewrite length_seq. lia.
Defined.

Lemma windfield3d_sample_bound_witness :
  Windfield3D.sampledData [3; 1; 4] = [3; 1; 4].
Proof.
  apply (windfield3d_sample_bound [3; 1; 4]). cbn. lia.
Defined.

Lemma correlationSample_bound_witness :
  App.correlationSample [3; 1; 4] = [3; 1; 4].
Proof.
  apply (correlationSample_bound [3; 1; 4]). cbn. lia.
Defined.

(** The grid loops only ever append the point at hand. *)
Lemma grid_fold_sublist {A K : Type} (skip : list (K * A) -> A -> bool)
  (key : A -> K) (data : list A) :
  forall g,
    exists kept,
      sublist kept data /\
      map snd (fold_left (fun g d => if skip g d then g else g ++ [(key d, d)]) data g)
      = map snd g ++ kept.
Proof.
  induction data as [|d rest IH]; intros g.
  - exists []. split; [constructor|]. cbn. by rewrite app_nil_r.
  - cbn [fold_left]. destruct (skip g d).
    + destruct (IH g) as (kept & Hsub & Heq).
      exists kept. split; [by apply sublist_cons | exact Heq].
    + destruct (IH (g ++ [(key d, d)])) as (kept & Hsub & Heq).
      exists (d :: kept). split; [by apply sublist_skip|].
      rewrite Heq, map_app. cbn. by rewrite <- app_assoc.
Qed.

Lemma windfield_grid_sublist {A : Type} (lat lon : A -> float) (data : list A) :
  sublist (map snd (Windfield.fillGrid lat lon data)) data.
Proof.
  destruct (grid_fold_sublist
              (fun g d =>
                 Windfield.grid_has g
                   (Windfield.gridKey lat lon (Windfield.range lat data)
                                      (Windfield.range lon data) d))
              (Windfield.gridKey lat lon (Windfield.range lat data)
                                 (Windfield.range lon data))
              data []) as (kept & Hsub & Heq).
  assert (map snd (Windfield.fillGrid lat lon data) = kept) as -> by exact Heq.
  exact Hsub.
Qed.

Lemma mapcanvas_grid_sublist_of {A : Type} (lat lon : A -> float)
  (l : list (nat * A)) :
  forall g,
    exists kept,
      sublist kept (map snd l) /\
      map snd
        (fold_left
           (fun g '(i, d) =>
              if i mod 3 =? 0 then
                let key := MapCanvas.gridKey lat lon d in
                if existsb (fun entry =>
                              Js.same_number_string (fst (fst entry)) (fst key)
                              && Js.same_number_string (snd (fst entry)) (snd key)) g
                then g else g ++ [(key, d)]
              else g)
           l g)
      = map snd g ++ kept.
Proof.
  induction l as [|[i d] rest IH]; intros g.
  - exists []. split; [constructor|]. cbn. by rewrite app_nil_r.
  - cbn [fold_left map snd].
    destruct (i mod 3 =? 0); [cbv zeta; destruct (existsb _ g)|].
    + destruct (IH g) as (kept & Hsub & Heq).
      exists kept. split; [by apply sublist_cons | exact Heq].
    + destruct (IH (g ++ [(MapCanvas.gridKey lat lon d, d)])) as (kept & Hsub & Heq).
      exists (d :: kept). split; [by apply sublist_skip|].
      etrans; [exact Heq|]. rewrite map_app. cbn. by rewrite <- app_assoc.
    + destruct (IH g) as (kept & Hsub & Heq).
      exists kept. split; [by apply sublist_cons | exact Heq].
Qed.

Lemma map_snd_imap_pair {A : Type} (data : list A) :
  map snd (imap pair data) = data.
Proof.
  change (snd <$> imap pair data = data).
  rewrite fmap_imap. rewrite (imap_ext _ (const id)) by done.
  rewrite imap_const. apply list_fmap_id.
Qed.

Lemma mapcanvas_grid_sublist {A : Type} (lat lon : A -> float) (data : list A) :
  sublist (map snd (MapCanvas.fillGrid lat lon data)) data.
Proof.
  destruct (mapcanvas_grid_sublist_of lat lon (imap pair data) [])
    as (kept & Hsub & Heq).
  assert (map snd (MapCanvas.fillGrid lat lon data) = kept) as -> by exact Heq.
  by rewrite map_snd_imap_pair in Hsub.
Qed.

(** X4: every sampler returns points of its input, in the order of the
    input, nothing made up and nothing repeated: the result is a sublist
    of the data, for the stride sampler of the loader and for the grid
    samplers of the wind field and of the map. *)
Theorem samplers_return_sublist {A : Type} (lat lon : A -> float)
  (data : list A) (maxPoints : nat) :
  sublist (Loader.sampleData data maxPoints) data /\
  sublist (Windfield.sampleData lat lon data maxPoints) data /\
  sublist (MapCanvas.sampleData lat lon data maxPoints) data.
Proof.
  unfold Loader.sampleData, Windfield.sampleData, MapCanvas.sampleData.
  destruct (length data <=? maxPoints); [done|]. cbv zeta.
  split; [apply filter_from_sublist|]. split.
  - destruct (maxPoints <? _).
    + etrans; [apply filter_from_sublist | apply windfield_grid_sublist].
    + apply windfield_grid_sublist.
  - destruct (maxPoints <? _).
    + etrans; [apply filter_from_sublist | apply mapcanvas_grid_sublist].
    + apply mapcanvas_grid_sublist.
Qed.

(** X5: the grid sampler of the map stays within a positive budget and
    returns an input that is within the budget unchanged. *)
Theorem mapcanvas_sampleData_within_budget {A : Type} (lat lon : A -> float)
  (data : list A) (maxPoints : nat) :
  0 < maxPoints ->
  length (MapCanvas.sampleData lat lon data maxPoints) <= maxPoints /\
  (length data <= maxPoints -> MapCanvas.sampleData lat lon data maxPoints = data).
Proof.
  intros Hpos. unfold MapCanvas.sampleData.
  destruct (length data <=? maxPoints) eqn:Hsmall.
  - apply Nat.leb_le in Hsmall. done.
  - apply Nat.leb_gt in Hsmall. cbv zeta. split; [|lia].
    destruct (maxPoints <? length (map snd (MapCanvas.fillGrid lat lon data)))
      eqn:Hmany.
    + apply Nat.ltb_lt in Hmany. by apply stride_within_budget.
    + by apply Nat.ltb_ge in Hmany.
Qed.

Lemma mapcanvas_sampleData_within_budget_witness :
  0 < 600 /\
  length (MapCanvas.sampleData Windfield.lat Windfield.lon
            (Windfield.diagonal 801) 600) <= 600.
Proof.
  assert (0 < 600) as Hpos by lia.
  split; [exact Hpos|].
  exact (proj1 (mapcanvas_sampleData_within_budget Windfield.lat Windfield.lon
                  (Windfield.diagonal 801) 600 Hpos)).
Defined.

Lemma rem_zero_first (n k : nat) :
  k < n -> Js.rem_is_zero 0 (Js.ceil_div n k) = true.
Proof.
  intros Hlt. unfold Js.ceil_div. destruct k as [|k']; [done|].
  assert (0 < (n + S k' - 1) / S k') as Hpos by (apply Nat.div_str_pos; lia).
  destruct ((n + S k' - 1) / S k') as [|s']; [lia|].
  cbn [Js.rem_is_zero]. by rewrite Nat.Div0.mod_0_l.
Qed.

Lemma stride_keeps_first {A : Type} (x : A) (rest : list A) (maxPoints : nat) :
  maxPoints < length (x :: rest) ->
  head (Js.array_filter
          (fun _ i => Js.rem_is_zero i (Js.ceil_div (length (x :: rest)) maxPoints))
          (x :: rest)) = Some x.
Proof.
  intros Hlt. unfold Js.array_filter. cbn [Js.filter_from].
  by rewrite rem_zero_first.
Qed.

Lemma sampled_keeps_first {A : Type} (sampled : list A) (x : A) (maxPoints : nat) :
  head sampled = Some x ->
  head (if maxPoints <? length sampled then
          Js.array_filter
            (fun _ i => Js.rem_is_zero i (Js.ceil_div (length sampled) maxPoints))
            sampled
        else sampled) = Some x.
Proof.
  intros Hhead. destruct sampled as [|y rest]; [done|].
  cbn in Hhead. injection Hhead as ->.
  destruct (maxPoints <? length (x :: rest)) eqn:Hmany; [|done].
  apply Nat.ltb_lt in Hmany. by apply stride_keeps_first.
Qed.

(** X6: the first point of a non-empty input is always among the
    returned points, as the first of them, for every budget (zero
    included) and for each of the three samplers. *)
Theorem samplers_keep_first_point {A : Type} (lat lon : A -> float)
  (x : A) (rest : list A) (maxPoints : nat) :
  head (Loader.sampleData (x :: rest) maxPoints) = Some x /\
  head (Windfield.sampleData lat lon (x :: rest) maxPoints) = Some x /\
  head (MapCanvas.sampleData lat lon (x :: rest) maxPoints) = Some x.
Proof.
  unfold Loader.sampleData, Windfield.sampleData, MapCanvas.sampleData.
  destruct (length (x :: rest) <=? maxPoints) eqn:Hsmall; [done|].
  apply Nat.leb_gt in Hsmall. cbv zeta.
  split; [by apply stride_keeps_first|]. split.
  - apply sampled_keeps_first.
    destruct (grid_fold_sublist
                (fun g d =>
                   Windfield.grid_has g
                     (Windfield.gridKey lat lon (Windfield.range lat (x :: rest))
                                        (Windfield.range lon (x :: rest)) d))
                (Windfield.gridKey lat lon (Windfield.range lat (x :: rest))
                                   (Windfield.range lon (x :: rest)))
                rest
                [(Windfield.gridKey lat lon (Windfield.range lat (x :: rest))
                                    (Windfield.range lon (x :: rest)) x, x)])
      as (kept & _ & Heq).
    assert (map snd (Windfield.fillGrid lat lon (x :: rest)) = x :: kept) as ->
      by exact Heq.
    done.
  - apply sampled_keeps_first.
    destruct (mapcanvas_grid_sublist_of lat lon (imap (pair ∘ S) rest)
                [(MapCanvas.gridKey lat lon x, x)]) as (kept & _ & Heq).
    assert (map snd (MapCanvas.fillGrid lat lon (x :: rest)) = x :: kept) as ->
      by exact Heq.
    done.
Qed.

(** ** The grid of the wind-field sampler *)

Lemma same_number_string_refl (x : float) : Js.same_number_string x x = true.
Proof.
  unfold Js.same_number_string, is_nan. by destruct (x =? x)%float.
Qed.

Lemma same_key_refl (k : float * float) : Windfield.same_key k k = true.
Proof.
  unfold Windfield.same_key. by rewrite !same_number_string_refl.
Qed.

Section GridInvariants.
Context {A : Type}.
Variable key : A -> float * float.

Let step : list ((float * float) * A) -> A -> list ((float * float) * A) :=
  fun g d => if Windfield.grid_has g (key d) then g else g ++ [(key d, d)].

Lemma grid_has_app (g g' : list ((float * float) * A)) k :
  Windfield.grid_has (g ++ g') k
  = Windfield.grid_has g k || Windfield.grid_has g' k.
Proof. unfold Windfield.grid_has. apply existsb_app. Qed.

Lemma grid_has_fold (data : list A) :
  forall g k,
    Windfield.grid_has g k = true ->
    Windfield.grid_has (fold_left step data g) k = true.
Proof.
  induction data as [|d rest IH]; intros g k Hhas; [done|].
  cbn [fold_left]. apply IH. unfold step.
  destruct (Windfield.grid_has g (key d)); [done|].
  by rewrite grid_has_app, Hhas.
Qed.

Lemma grid_covers (data : list A) :
  forall g d,
    In d data -> Windfield.grid_has (fold_left step data g) (key d) = true.
Proof.
  induction data as [|d' rest IH]; intros g d Hin; [done|].
  destruct Hin as [-> | Hin]; [|by apply IH].
  cbn [fold_left]. apply grid_has_fold. unfold step.
  destruct (Windfield.grid_has g (key d)) eqn:Hhas; [done|].
  rewrite grid_has_app. cbn. by rewrite same_key_refl, orb_true_r.
Qed.

Lemma grid_separated (data : list A) :
  forall g, Windfield.separated g -> Windfield.separated (fold_left step data g).
Proof.
  induction data as [|d rest IH]; intros g Hsep; [done|].
  cbn [fold_left]. apply IH. unfold step.
  destruct (Windfield.grid_has g (key d)) eqn:Hhas; [done|].
  intros i j e e' Hlt Hi Hj.
  destruct (decide (j < length g)) as [Hj_old|Hj_new].
  - rewrite lookup_app_l in Hi, Hj by lia. exact (Hsep i j e e' Hlt Hi Hj).
  - rewrite lookup_app_r in Hj by lia.
    destruct (j - length g) as [|n] eqn:Hn; [|by destruct n].
    injection Hj as <-. cbn [fst].
    assert (i < length g) as Hi_old by lia.
    rewrite lookup_app_l in Hi by lia.
    unfold Windfield.grid_has in Hhas.
    rewrite <- not_true_iff_false, existsb_exists in Hhas.
    apply not_true_iff_false. intros Hsame. apply Hhas.
    exists e. split; [|done]. apply list_elem_of_In.
    by eapply list_elem_of_lookup_2.
Qed.

Lemma grid_entries (data : list A) :
  forall g,
    Forall (fun e => fst e = key (snd e)) g ->
    Forall (fun e => fst e = key (snd e)) (fold_left step data g).
Proof.
  induction data as [|d rest IH]; intros g Hg; [done|].
  cbn [fold_left]. apply IH. unfold step.
  destruct (Windfield.grid_has g (key d)); [done|].
  apply Forall_app. split; [done|]. by constructor.
Qed.
End GridInvariants.

(** X7: the grid of the wind-field sampler covers the data and never
    holds a cell twice: every input point finds an entry with its own
    cell key, no two entries have keys that print as the same string, and
    every entry is stored under the key of the point it holds. *)
Theorem windfield_grid_covers_and_separates {A : Type} (lat lon : A -> float)
  (data : list A) :
  let key := Windfield.gridKey lat lon (Windfield.range lat data)
                               (Windfield.range lon data) in
  let grid := Windfield.fillGrid lat lon data in
  (forall d, In d data -> Windfield.grid_has grid (key d) = true) /\
  (forall i j e e',
     i < j -> grid !! i = Some e -> grid !! j = Some e' ->
     Windfield.same_key (fst e) (fst e') = false) /\
  Forall (fun e => fst e = key (snd e)) grid.
Proof.
  intros key grid. split; [|split].
  - intros d Hin. exact (grid_covers key data [] d Hin).
  - apply (grid_separated key data []). intros i j e e' _ Hi. done.
  - apply (grid_entries key data []). constructor.
Qed.

Lemma windfield_grid_covers_and_separates_witness :
  let data := Windfield.diagonal 801 in
  let key := Windfield.gridKey Windfield.lat Windfield.lon
               (Windfield.range Windfield.lat data)
               (Windfield.range Windfield.lon data) in
  In (Windfield.Point 54 130) data /\
  Windfield.grid_has (Windfield.fillGrid Windfield.lat Windfield.lon data)
    (key (Windfield.Point 54 130)) = true.
Proof.
  intros data key.
  assert (In (Windfield.Point 54 130) data) as Hin.
  { apply list_elem_of_In, (list_elem_of_lookup_2 _ 800). vm_compute. reflexivity. }
  split; [exact Hin|].
  exact (proj1 (windfield_grid_covers_and_separates Windfield.lat Windfield.lon data)
           _ Hin).
Defined.

(** ** Further properties of the correlation matrix *)

Lemma float_mul_comm (x y : float) : (x * y)%float = (y * x)%float.
Proof.
  apply FloatAxioms.Prim2SF_inj. rewrite !FloatAxioms.mul_spec.
  unfold FloatAxioms.SF64mul, SpecFloat.SFmul.
  destruct (FloatOps.Prim2SF x) as [sx|sx| |sx mx ex],
           (FloatOps.Prim2SF y) as [sy|sy| |sy my ey];
    try reflexivity; try (by rewrite (xorb_comm sx sy)).
  by rewrite (xorb_comm sx sy), (Pos.mul_comm mx my), (Z.add_comm ex ey).
Qed.

Lemma combine_swap {A B : Type} (x : list A) (y : list B) :
  combine y x = map (fun p => (snd p, fst p)) (combine x y).
Proof.
  revert y. induction x as [|a x IH]; intros [|b y]; cbn; try done.
  by rewrite IH.
Qed.

Lemma deviations_fold_swap (mx my : float) (l : list (float * float)) :
  forall n a b,
    fold_left
      (fun '(numerator, sumSqX, sumSqY) '(xi, yi) =>
         let dx := (xi - my)%float in
         let dy := (yi - mx)%float in
         ((numerator + dx * dy)%float, (sumSqX + dx * dx)%float,
          (sumSqY + dy * dy)%float))
      (map (fun p => (snd p, fst p)) l) (n, b, a)
    = let '(n', a', b') :=
        fold_left
          (fun '(numerator, sumSqX, sumSqY) '(xi, yi) =>
             let dx := (xi - mx)%float in
             let dy := (yi - my)%float in
             ((numerator + dx * dy)%float, (sumSqX + dx * dx)%float,
              (sumSqY + dy * dy)%float))
          l (n, a, b) in
      (n', b', a').
Proof.
  induction l as [|[xi yi] l IH]; intros n a b; [done|].
  cbn [map fold_left fst snd].
  rewrite (float_mul_comm (yi - my) (xi - mx)). apply IH.
Qed.

Lemma deviations_swap (x y : list float) :
  Correlation.deviations y x
  = let '(n, a, b) := Correlation.deviations x y in (n, b, a).
Proof.
  unfold Correlation.deviations. rewrite (combine_swap x y).
  apply deviations_fold_swap.
Qed.

(** Pearson's coefficient as computed does not depend on the order of
    its two arguments. *)
Lemma correlation_comm (x y : list float) :
  Correlation.correlation y x = Correlation.correlation x y.
Proof.
  unfold Correlation.correlation.
  destruct (length x =? length y) eqn:Hlen.
  - apply Nat.eqb_eq in Hlen. rewrite <- Hlen, Nat.eqb_refl.
    destruct (negb true || (length x =? 0)); [done|].
    rewrite deviations_swap.
    destruct (Correlation.deviations x y) as [[n a] b].
    by rewrite (float_mul_comm b a).
  - rewrite Nat.eqb_sym, Hlen. done.
Qed.

Lemma matrix_cell_out_of_range (data : list Js.object) (variables : list string)
  (i j : nat) :
  length variables <= i \/ length variables <= j ->
  Correlation.computeCorrelationMatrix data variables !! i ≫= (.!! j) = None.
Proof.
  unfold Correlation.computeCorrelationMatrix. intros Hout.
  rewrite list_lookup_imap.
  destruct (variables !! i) as [vi|] eqn:Hi; [|done]. cbn.
  rewrite list_lookup_imap.
  destruct Hout as [Hout|Hout].
  - apply lookup_ge_None_2 in Hout. congruence.
  - apply lookup_ge_None_2 in Hout. by rewrite Hout.
Qed.

(** X8: the correlation matrix is square, one row and one column per
    requested variable, and every cell of its diagonal is exactly 1. *)
Theorem correlationMatrix_square_unit_diagonal (data : list Js.object)
  (variables : list string) :
  let M := Correlation.computeCorrelationMatrix data variables in
  length M = length variables /\
  Forall (fun row => length row = length variables) M /\
  forall i, i < length variables -> M !! i ≫= (.!! i) = Some 1%float.
Proof.
  intros M. subst M.
  split; [apply length_imap|]. split.
  - unfold Correlation.computeCorrelationMatrix.
    apply Forall_forall. intros row Hrow.
    apply elem_of_lookup_imap in Hrow as (i & vi & -> & _).
    apply length_imap.
  - intros i Hi. apply lookup_lt_is_Some_2 in Hi as [vi Hvi].
    rewrite (computeCorrelationMatrix_cell data variables i i vi vi Hvi Hvi).
    by rewrite Nat.eqb_refl.
Qed.

Lemma correlationMatrix_square_unit_diagonal_witness :
  Correlation.computeCorrelationMatrix Correlation.gappy_records ["PM2.5"; "PM10"]
    !! 1 ≫= (.!! 1) = Some 1%float.
Proof.
  apply (correlationMatrix_square_unit_diagonal Correlation.gappy_records
           ["PM2.5"; "PM10"]).
  cbn. lia.
Defined.

(** X9: the correlation matrix is symmetric: cell (i, j) and cell (j, i)
    hold the same number, for all i and j. *)
Theorem correlationMatrix_symmetric (data : list Js.object)
  (variables : list string) (i j : nat) :
  Correlation.computeCorrelationMatrix data variables !! i ≫= (.!! j)
  = Correlation.computeCorrelationMatrix data variables !! j ≫= (.!! i).
Proof.
  destruct (variables !! i) as [vi|] eqn:Hi.
  - destruct (variables !! j) as [vj|] eqn:Hj.
    + rewrite (computeCorrelationMatrix_cell data variables i j vi vj Hi Hj).
      rewrite (computeCorrelationMatrix_cell data variables j i vj vi Hj Hi).
      rewrite (Nat.eqb_sym j i). destruct (i =? j); [done|].
      by rewrite correlation_comm.
    + apply lookup_ge_None_1 in Hj.
      rewrite !matrix_cell_out_of_range by auto. done.
  - apply lookup_ge_None_1 in Hi.
    rewrite !matrix_cell_out_of_range by auto. done.
Qed.

(** X10: when the two variables resolve in a different number of
    records, their cell of the matrix is 0. *)
Theorem correlationMatrix_zero_on_unequal_columns (data : list Js.object)
  (variables : list string) (i j : nat) (vi vj : string) :
  variables !! i = Some vi -> variables !! j = Some vj ->
  length (Correlation.column data vi) <> length (Correlation.column data vj) ->
  Correlation.computeCorrelationMatrix data variables !! i ≫= (.!! j)
  = Some 0%float.
Proof.
  intros Hi Hj Hlen.
  rewrite (computeCorrelationMatrix_cell data variables i j vi vj Hi Hj).
  destruct (i =? j) eqn:Hij.
  - apply Nat.eqb_eq in Hij. subst j. congruence.
  - unfold Correlation.correlation.
    apply Nat.eqb_neq in Hlen. by rewrite Hlen.
Qed.

Lemma correlationMatrix_zero_on_unequal_columns_witness :
  let data := [ [("PM2.5", Js.VNum 1); ("PM10", Js.VNum 7)];
                [("PM2.5", Js.VNum 2); ("PM10", Js.VStr "NA")];
                [("PM2.5", Js.VNum 4); ("PM10", Js.VNum 9)] ]%string in
  length (Correlation.column data "PM2.5") <> length (Correlation.column data "PM10") /\
  Correlation.computeCorrelationMatrix data ["PM2.5"; "PM10"] !! 0 ≫= (.!! 1)
  = Some 0%float.
Proof.
  intros data.
  assert (length (Correlation.column data "PM2.5")
          <> length (Correlation.column data "PM10")) as Hlen
    by (vm_compute; lia).
  split; [exact Hlen|].
  exact (correlationMatrix_zero_on_unequal_columns data ["PM2.5"; "PM10"]%string
           0 1 "PM2.5" "PM10" eq_refl eq_refl Hlen).
Defined.

(** X11: a reading that is the number 0 counts as missing: when the
    variable's own column holds 0, that column is the first whose name
    contains the variable, and the record has neither of the two
    unit-suffixed columns, [extractValue] returns [null]. *)
Theorem extractValue_zero_is_missing (d : Js.object) (varName : string) :
  Js.get d varName = Js.VNum 0 ->
  Correlation.getColumnName d varName = Some varName ->
  Js.get d (varName ++ "(微克每立方米)") = Js.VUndefined ->
  Js.get d (varName ++ "(mg/m3)") = Js.VUndefined ->
  Correlation.extractValue d varName = None.
Proof.
  intros Hzero Hcol Hug Hmg. unfold Correlation.extractValue.
  rewrite Hcol. cbn [Correlation.get_nullable]. by rewrite Hzero, Hug, Hmg.
Qed.

Lemma extractValue_zero_is_missing_witness :
  let d := [("SO2", Js.VNum 0); ("NO2", Js.VNum 12)]%string in
  Js.get d "SO2" = Js.VNum 0 /\
  Correlation.extractValue d "SO2" = None /\
  Correlation.extractValue d "NO2" = Some 12%float.
Proof.
  intros d.
  assert (Js.get d "SO2" = Js.VNum 0) as Hzero by reflexivity.
  split; [exact Hzero|]. split.
  - apply (extractValue_zero_is_missing d "SO2" Hzero); reflexivity.
  - vm_compute. reflexivity.
Defined.

Lemma list_filter_sublist {A : Type} (f : A -> bool) (l : list A) :
  sublist (List.filter f l) l.
Proof.
  induction l as [|x l IH]; cbn; [constructor|].
  destruct (f x); [by apply sublist_skip | by apply sublist_cons].
Qed.

(** X27: what the correlation view draws. A matrix is drawn only for raw
    data that is not empty and shows at least two of the eight fixed
    variables; the variables drawn are among the eight, in their fixed
    order; and the matrix is the one computed, for these variables, from
    the stride sample of the raw data, with one row per variable. *)
Theorem loadCorrelationData_matrix (rawData : list Js.object)
  (vars : list string) (M : list (list float)) :
  App.loadCorrelationData rawData = Some (vars, M) ->
  rawData <> [] /\
  sublist vars Correlation.variables /\
  2 <= length vars <= 8 /\
  M = Correlation.computeCorrelationMatrix (App.correlationSample rawData) vars /\
  length M = length vars.
Proof.
  unfold App.loadCorrelationData, Correlation.draw.
  destruct rawData as [|first rest]; [done|].
  destruct (App.correlationSample (first :: rest)) as [|d sample]; [done|].
  cbv zeta.
  destruct (length (Correlation.availableVars (d :: sample)) <? 2) eqn:Hfew; [done|].
  intros Heq. injection Heq as <- <-.
  apply Nat.ltb_ge in Hfew.
  assert (sublist (Correlation.availableVars (d :: sample)) Correlation.variables)
    as Hsub by apply list_filter_sublist.
  split; [done|]. split; [exact Hsub|]. split.
  - split; [exact Hfew|]. apply sublist_length in Hsub. exact Hsub.
  - split; [done|]. apply length_imap.
Qed.

Lemma loadCorrelationData_matrix_witness :
  exists M,
    App.loadCorrelationData Correlation.gappy_records
    = Some (["PM2.5"; "PM10"]%string, M) /\
    length M = 2.
Proof.
  assert (exists M, App.loadCorrelationData Correlation.gappy_records
                    = Some (["PM2.5"; "PM10"]%string, M)) as [M HM]
    by (vm_compute; eexists; reflexivity).
  exists M. split; [exact HM|].
  by destruct (loadCorrelationData_matrix _ _ _ HM) as (_ & _ & _ & _ & ->).
Defined.

(** ** Objects and strings *)

Lemma get_set_eq (o : Js.object) (k : string) (x : Js.value) :
  Js.get (Js.set o k x) k = x.
Proof.
  induction o as [|[k' x'] o IH]; cbn.
  - by rewrite String.eqb_refl.
  - destruct (String.eqb k' k) eqn:Hk; cbn; by rewrite Hk.
Qed.

Lemma get_set_ne (o : Js.object) (k k' : string) (x : Js.value) :
  k <> k' -> Js.get (Js.set o k x) k' = Js.get o k'.
Proof.
  intros Hne. induction o as [|[k0 x0] o IH]; cbn.
  - apply String.eqb_neq in Hne. by rewrite Hne.
  - destruct (String.eqb k0 k) eqn:Hk; cbn.
    + apply String.eqb_eq in Hk. subst k0.
      apply String.eqb_neq in Hne. by rewrite Hne.
    + by rewrite IH.
Qed.

Lemma has_own_set (o : Js.object) (k k' : string) (x : Js.value) :
  Js.has_own (Js.set o k x) k' = Js.has_own o k' || String.eqb k k'.
Proof.
  unfold Js.has_own. induction o as [|[k0 x0] o IH]; cbn.
  - by rewrite orb_false_r.
  - destruct (String.eqb k0 k) eqn:Hk; cbn.
    + apply String.eqb_eq in Hk. subst k0.
      destruct (String.eqb k k'); cbn; [done|]. by rewrite orb_false_r.
    + rewrite IH. by rewrite orb_assoc.
Qed.

Lemma get_cases (P : Js.value -> Prop) (o : Js.object) (k : string) :
  P Js.VUndefined -> Forall (fun kv => P (snd kv)) o -> P (Js.get o k).
Proof.
  intros Hundef Hall. induction Hall as [|[k' x] o Hx _ IH]; cbn; [done|].
  by destruct (String.eqb k' k).
Qed.

Lemma set_cells (P : Js.value -> Prop) (o : Js.object) (k : string) (x : Js.value) :
  P x -> Forall (fun kv => P (snd kv)) o ->
  Forall (fun kv => P (snd kv)) (Js.set o k x).
Proof.
  intros Hx Hall. induction Hall as [|[k' x'] o Hx' Ho IH]; cbn.
  - by constructor.
  - destruct (String.eqb k' k); constructor; cbn in *; auto.
Qed.

Lemma stamp_stamped (d : string) (row : Js.object) :
  Loader.stamped d (Loader.stamp d row).
Proof.
  unfold Loader.stamped, Loader.stamp. repeat split.
  - rewrite !get_set_ne by discriminate. apply get_set_eq.
  - rewrite get_set_ne by discriminate. apply get_set_eq.
  - apply get_set_eq.
Qed.

Lemma stamp_other (d : string) (row : Js.object) (k : string) :
  k <> "date"%string -> k <> "yearMonth"%string -> k <> "day"%string ->
  Js.get (Loader.stamp d row) k = Js.get row k.
Proof.
  intros H1 H2 H3. unfold Loader.stamp. by rewrite !get_set_ne.
Qed.

(** ** The tabular decoder *)

Lemma parseCell_parsed (cell : option string) :
  Loader.parsed_cell (Loader.parseCell cell).
Proof.
  unfold Loader.parseCell.
  destruct cell as [text|]; cbn.
  - destruct (is_nan (Js.parseFloat text)) eqn:Hnan; cbn; done.
  - vm_compute. done.
Qed.

Lemma parseRow_fold (values : list string) (l : list (nat * string)) :
  forall row,
    let row' :=
      fold_left
        (fun row '(index, header) =>
           Js.set row header (Loader.parseCell (values !! index))) l row in
    (forall k, Js.has_own row' k
               = Js.has_own row k || existsb (fun ih => String.eqb (snd ih) k) l) /\
    (Forall (fun kv => Loader.parsed_cell (snd kv)) row ->
     Forall (fun kv => Loader.parsed_cell (snd kv)) row').
Proof.
  induction l as [|[index header] l IH]; intros row; cbn [fold_left]; cbv zeta.
  - cbn. split; [intros k; by rewrite orb_false_r | done].
  - destruct (IH (Js.set row header (Loader.parseCell (values !! index))))
      as (Hown & Hcells).
    cbv zeta in Hown, Hcells. split.
    + intros k. rewrite Hown, has_own_set. cbn. by rewrite orb_assoc.
    + intros Hrow. apply Hcells. apply set_cells; [apply parseCell_parsed | done].
Qed.

(** X12: the decoder rejects no line and gives every record the columns
    of the header: there is one record per line after the first, and a
    record has a column exactly for the header names (none of them empty),
    however many cells its line has. *)
Theorem parseCSV_columns (text : string) :
  let lines := Js.split Loader.newline (Js.trim text) in
  let '(headers, data) := Loader.parseCSV text in
  length data = length lines - 1 /\
  Forall (fun h => h <> ""%string) headers /\
  Forall (fun row => forall k, Js.has_own row k = true <-> In k headers) data.
Proof.
  unfold Loader.parseCSV. cbv zeta.
  set (lines := Js.split Loader.newline (Js.trim text)).
  set (headers := filter _ _).
  split; [|split].
  - rewrite length_map. destruct lines; cbn; lia.
  - apply Forall_forall. intros h Hin. by apply list_elem_of_filter in Hin as [? _].
  - apply Forall_forall. intros row Hrow.
    apply list_elem_of_fmap in Hrow as (line & -> & _).
    unfold Loader.parseRow.
    destruct (parseRow_fold (map Js.trim (Js.split "," line)) (imap pair headers) [])
      as (Hown & _).
    cbv zeta in Hown.
    intros k. rewrite Hown. cbn [Js.has_own existsb orb].
    rewrite existsb_exists. split.
    + intros ([i h] & Hin & Heq). apply String.eqb_eq in Heq. cbn in Heq. subst h.
      apply (proj2 (list_elem_of_In _ _)) in Hin.
      apply elem_of_lookup_imap in Hin as (j & h & Hpair & Hlook).
      injection Hpair as _ ->.
      apply list_elem_of_In. by eapply list_elem_of_lookup_2.
    + intros Hin. apply (proj2 (list_elem_of_In _ _)) in Hin.
      apply list_elem_of_lookup in Hin as [i Hi].
      exists (i, k). split; [|apply String.eqb_refl].
      apply list_elem_of_In. by apply elem_of_lookup_imap_2.
Qed.

(** X13: every cell of a parsed record is a number that is not [NaN], a
    text whose [parseFloat] is [NaN], or [undefined]; it is never [null]
    and never the number [NaN]. *)
Theorem parseCSV_cells (text : string) (row : Js.object) (k : string) :
  In row (snd (Loader.parseCSV text)) ->
  Loader.parsed_cell (Js.get row k).
Proof.
  unfold Loader.parseCSV. cbv zeta. cbn [snd]. intros Hrow.
  apply in_map_iff in Hrow as (line & <- & _).
  apply get_cases; [done|]. unfold Loader.parseRow.
  apply parseRow_fold. constructor.
Qed.

Lemma parseCSV_cells_witness :
  let row := [("lat", Js.VNum 30.1); ("lon", Js.VNum 120.2);
              ("PM2.5(微克每立方米)", Js.VStr "NA"); ("date", Js.VNum 20130101)]%string in
  In row (snd (Loader.parseCSV Loader.sample_csv)) /\
  Loader.parsed_cell (Js.get row "PM2.5(微克每立方米)").
Proof.
  intros row.
  assert (In row (snd (Loader.parseCSV Loader.sample_csv))) as Hin
    by (vm_compute; right; left; reflexivity).
  split; [exact Hin|].
  exact (parseCSV_cells Loader.sample_csv row "PM2.5(微克每立方米)" Hin).
Defined.

Lemma string_app_cons (ch : ascii) (a b : string) :
  (String ch a ++ b)%string = String ch (a ++ b)%string.
Proof. done. Qed.

Lemma string_app_assoc (a b c : string) :
  ((a ++ b) ++ c)%string = (a ++ (b ++ c))%string.
Proof.
  induction a as [|ch a IH]; [done|].
  by rewrite !string_app_cons, IH.
Qed.

Lemma string_app_nil_r (a : string) : (a ++ "")%string = a.
Proof. induction a as [|ch a IH]; [done|]. by rewrite string_app_cons, IH. Qed.

Lemma string_rev_app_spec (s acc : string) :
  String.rev_app s acc = (String.rev s ++ acc)%string.
Proof.
  unfold String.rev. revert acc.
  induction s as [|ch s IH]; intros acc; [done|].
  cbn [String.rev_app].
  rewrite (IH (String ch acc)), (IH (String ch "")).
  by rewrite string_app_assoc.
Qed.

Lemma string_rev_cons (ch : ascii) (s : string) :
  String.rev (String ch s) = (String.rev s ++ String ch "")%string.
Proof. unfold String.rev at 1. cbn [String.rev_app]. apply string_rev_app_spec. Qed.

Lemma string_rev_app (a b : string) :
  String.rev (a ++ b) = (String.rev b ++ String.rev a)%string.
Proof.
  induction a as [|ch a IH].
  - change (String.rev ("" ++ b)%string) with (String.rev b).
    change (String.rev "") with ""%string. by rewrite string_app_nil_r.
  - rewrite string_app_cons, !string_rev_cons, IH. by rewrite string_app_assoc.
Qed.

Lemma string_rev_involutive (s : string) : String.rev (String.rev s) = s.
Proof.
  induction s as [|ch s IH]; [done|].
  rewrite string_rev_cons, string_rev_app, IH. done.
Qed.

Lemma prefix_app (p s : string) : String.prefix p (p ++ s) = true.
Proof.
  induction p as [|ch p IH]; [by destruct s|].
  rewrite string_app_cons. cbn [String.prefix].
  by destruct (ascii_dec ch ch).
Qed.

Lemma with_slash_ends (path : string) :
  Js.ends_with (Loader.with_slash path) "/" = true.
Proof.
  unfold Loader.with_slash.
  destruct (Js.ends_with path "/") eqn:Hends; [done|].
  unfold Js.ends_with. rewrite string_rev_app. apply prefix_app.
Qed.

Lemma with_slash_idempotent (path : string) :
  Loader.with_slash (Loader.with_slash path) = Loader.with_slash path.
Proof.
  unfold Loader.with_slash at 1. by rewrite with_slash_ends.
Qed.

Lemma testUrl_dayPath (st : Loader.state) (d root : string) :
  Loader.currentRoot st = Loader.with_slash root ->
  Loader.dayPath st d = Loader.testUrl (Loader.relativePath d) root.
Proof.
  intros Hroot. unfold Loader.dayPath, Loader.testUrl, Loader.relativePath.
  by rewrite Hroot.
Qed.

(** ** Further properties of the loader *)

Lemma setBasePath_root (path : string) (st : Loader.state) :
  path <> ""%string ->
  Loader.currentRoot (Loader.setBasePath path st) = Loader.with_slash path /\
  Loader.isResolved (Loader.setBasePath path st) = true /\
  Loader.dataCache (Loader.setBasePath path st) = Loader.dataCache st.
Proof.
  intros Hpath. unfold Loader.setBasePath.
  assert ((0 <? String.length path) = true) as ->
    by (destruct path; [done | reflexivity]).
  unfold Loader.currentRoot, Loader.isResolved. cbn.
  by rewrite with_slash_nonempty.
Qed.

(** X14: an explicit override switches fallback probing off. After
    [setBasePath] with a non-empty path the root is that path with one
    trailing slash, and the locator returns it without any fetch, whatever
    the network; setting it again changes nothing, and the empty path is
    ignored. *)
Theorem setBasePath_overrides_probing (path : string) (st : Loader.state) :
  path <> ""%string ->
  let st' := Loader.setBasePath path st in
  Loader.basePath st' = Loader.with_slash path /\
  Js.ends_with (Loader.basePath st') "/" = true /\
  Loader.currentRoot st' = Loader.with_slash path /\
  Loader.dataCache st' = Loader.dataCache st /\
  Loader.setBasePath (Loader.basePath st') st' = st' /\
  Loader.setBasePath "" st = st /\
  forall net d log,
    Loader.run net (Loader.resolveBasePathIfNeeded d) st' log
    = (Loader.with_slash path, st', log).
Proof.
  intros Hpath st'. subst st'. unfold Loader.setBasePath.
  assert ((0 <? String.length path) = true) as ->
    by (destruct path; [done | reflexivity]).
  cbn [Loader.basePath Loader.dataCache].
  split; [done|]. split; [apply with_slash_ends|]. split.
  - unfold Loader.currentRoot. cbn. by rewrite with_slash_nonempty.
  - split; [done|]. split; [|split; [done|]].
    + assert ((0 <? String.length (Loader.with_slash path)) = true) as ->.
      { pose proof (with_slash_nonempty path) as Hne.
        destruct (Loader.with_slash path); [done | reflexivity]. }
      cbn. by rewrite with_slash_idempotent.
    + intros net d log.
      destruct (run_resolve_resolved net d
                  (Loader.State (Loader.dataCache st) (Loader.with_slash path)
                                (Some (Loader.with_slash path)) (Loader.allocated st))
                  log) as (r & Hr & Hrun).
      * cbn. by rewrite with_slash_nonempty.
      * cbn in Hr. injection Hr as <-. exact Hrun.
Qed.

Lemma setBasePath_overrides_probing_witness :
  let st := Loader.setBasePath "/srv/data" (Loader.new_DataLoader None) in
  "/srv/data"%string <> ""%string /\
  Loader.basePath st = "/srv/data/"%string /\
  Loader.run Loader.down_network (Loader.resolveBasePathIfNeeded "20130101") st []
  = ("/srv/data/"%string, st, []).
Proof.
  intros st.
  assert ("/srv/data"%string <> ""%string) as Hpath by discriminate.
  split; [exact Hpath|].
  destruct (setBasePath_overrides_probing "/srv/data" (Loader.new_DataLoader None)
              Hpath) as (Hbase & _ & _ & _ & _ & _ & Hrun).
  split; [exact Hbase|]. apply Hrun.
Defined.

(** X15: [loadCSVFile] settles with exactly one fetch, of the given
    path, whatever the outcome; it returns [null] exactly when the fetch
    throws or the response is not ok, and leaves the cache and both root
    fields as they were. *)
Theorem loadCSVFile_one_fetch (net : Loader.network) (filePath : string)
  (st : Loader.state) (log : list string) :
  let '(result, st', log') := Loader.run net (Loader.loadCSVFile filePath) st log in
  log' = log ++ [filePath] /\
  (result = None <-> Loader.response_ok (net filePath) = false) /\
  Loader.dataCache st' = Loader.dataCache st /\
  Loader.basePath st' = Loader.basePath st /\
  Loader.resolvedBasePath st' = Loader.resolvedBasePath st.
Proof.
  destruct (Loader.response_ok (net filePath)) eqn:Hok.
  - destruct (run_loadCSVFile_ok net filePath st log Hok) as (headers & rows & ->).
    repeat split; try done.
  - rewrite (run_loadCSVFile_fail net filePath st log Hok). repeat split; done.
Qed.

Lemma run_loadCSVFile_text (net : Loader.network) filePath text st log :
  net filePath = Loader.Response true text ->
  Loader.run net (Loader.loadCSVFile filePath) st log
  = (Some (fst (Loader.parseCSV text),
           Loader.Array (Loader.allocated st) (snd (Loader.parseCSV text))),
     Loader.State (Loader.dataCache st) (Loader.basePath st)
                  (Loader.resolvedBasePath st) (S (Loader.allocated st)),
     log ++ [filePath]).
Proof.
  intros Hnet. unfold Loader.loadCSVFile.
  rewrite run_bind, run_fetch, Hnet.
  destruct (Loader.parseCSV text) as [headers rows].
  by rewrite run_bind, run_new_array.
Qed.

(** X16: when the file of the day is served at the first attempt,
    [loadDayData] issues that one fetch only, returns one record per data
    line of the file, each stamped with the date, its month and its day
    (the other columns as parsed), and stores the returned array in the
    cache under the date. *)
Theorem loadDayData_stamps_and_caches (net : Loader.network) (d text : string)
  (st : Loader.state) (log : list string) :
  Loader.dataCache st !! d = None ->
  net (Loader.dayPath st d) = Loader.Response true text ->
  let rows := snd (Loader.parseCSV text) in
  let data := Loader.Array (Loader.allocated st) (map (Loader.stamp d) rows) in
  Loader.run net (Loader.loadDayData d) st log
  = (data,
     Loader.State (<[d := data]> (Loader.dataCache st)) (Loader.basePath st)
                  (Loader.resolvedBasePath st) (S (Loader.allocated st)),
     log ++ [Loader.dayPath st d]) /\
  length (Loader.items data) = length rows /\
  Forall (Loader.stamped d) (Loader.items data) /\
  forall i row k,
    rows !! i = Some row ->
    k <> "date"%string -> k <> "yearMonth"%string -> k <> "day"%string ->
    (fun r => Js.get r k) <$> Loader.items data !! i = Some (Js.get row k).
Proof.
  intros Hmiss Hnet rows data. split; [|split; [|split]].
  - unfold Loader.loadDayData.
    rewrite run_bind, run_get, Hmiss.
    rewrite run_bind, (run_loadCSVFile_text net _ text) by done.
    rewrite run_bind, run_ret.
    by rewrite run_bind, run_get, run_bind, run_put, run_ret.
  - cbn. apply length_map.
  - cbn. apply Forall_forall. intros row Hrow.
    apply list_elem_of_fmap in Hrow as (row0 & -> & _). apply stamp_stamped.
  - intros i row k Hrow H1 H2 H3. cbn [Loader.items data].
    rewrite list_lookup_fmap, Hrow. cbn. by rewrite stamp_other.
Qed.

Lemma loadDayData_stamps_and_caches_witness :
  let st := Loader.new_DataLoader None in
  let d := "20130101"%string in
  Loader.dataCache st !! d = None /\
  Loader.default_network (Loader.dayPath st d) = Loader.Response true Loader.sample_csv /\
  Forall (Loader.stamped d)
    (Loader.items
       (Loader.Array (Loader.allocated st)
          (map (Loader.stamp d) (snd (Loader.parseCSV Loader.sample_csv))))).
Proof.
  intros st d.
  assert (Loader.dataCache st !! d = None) as Hmiss by reflexivity.
  assert (Loader.default_network (Loader.dayPath st d)
          = Loader.Response true Loader.sample_csv) as Hnet
    by (vm_compute; reflexivity).
  split; [exact Hmiss|]. split; [exact Hnet|].
  pose proof (loadDayData_stamps_and_caches Loader.default_network d
                Loader.sample_csv st [] Hmiss Hnet) as Hspec.
  cbv zeta in Hspec. destruct Hspec as (_ & _ & Hstamped & _). exact Hstamped.
Defined.

(** X17: the fallback at work. When the first attempt fails, no root is
    resolved yet, and the first candidate that answers is [root],
    [loadDayData] fetches the day path once, then one test URL per
    candidate up to [root], then the file below [root]; it adopts [root] in
    both root fields, and returns and caches the stamped records of that
    file. *)
Theorem loadDayData_recovers_through_fallback (net : Loader.network)
  (d text : string) (st : Loader.state) (pre post : list string) (root : string) :
  Loader.dataCache st !! d = None ->
  Loader.response_ok (net (Loader.dayPath st d)) = false ->
  Loader.isResolved st = false ->
  Loader.candidates st = pre ++ root :: post ->
  Forall (fun r => Loader.response_ok
                     (net (Loader.testUrl (Loader.relativePath d) r)) = false) pre ->
  net (Loader.testUrl (Loader.relativePath d) root) = Loader.Response true text ->
  let url := Loader.testUrl (Loader.relativePath d) in
  let data := Loader.Array (Loader.allocated st)
                (map (Loader.stamp d) (snd (Loader.parseCSV text))) in
  Loader.run net (Loader.loadDayData d) st []
  = (data,
     Loader.State (<[d := data]> (Loader.dataCache st)) (Loader.with_slash root)
                  (Some (Loader.with_slash root)) (S (Loader.allocated st)),
     [Loader.dayPath st d] ++ map url (pre ++ [root]) ++ [url root]).
Proof.
  intros Hmiss Hfirst Hunres Hsplit Hpre Hroot url data.
  set (adopted := Loader.State (Loader.dataCache st) (Loader.with_slash root)
                    (Some (Loader.with_slash root)) (Loader.allocated st)).
  assert (Loader.dayPath adopted d = url root) as Hpath.
  { apply testUrl_dayPath. unfold Loader.currentRoot. cbn.
    by rewrite with_slash_nonempty. }
  unfold Loader.loadDayData.
  rewrite run_bind, run_get, Hmiss.
  rewrite run_bind, run_loadCSVFile_fail by done.
  rewrite run_bind, run_bind.
  rewrite run_resolve_unresolved, Hsplit by done.
  rewrite run_probe_first_ok by (by try rewrite Hroot).
  fold adopted. rewrite run_bind, run_get, Hpath.
  rewrite (run_loadCSVFile_text net _ text) by done.
  rewrite run_bind, run_get, run_bind, run_put, run_ret.
  cbn [Loader.items Loader.array_id Loader.dataCache Loader.basePath
       Loader.resolvedBasePath Loader.allocated adopted].
  by rewrite <- app_assoc.
Qed.

Lemma loadDayData_recovers_through_fallback_witness :
  let st := Loader.new_DataLoader None in
  let d := "20130101"%string in
  Loader.isResolved st = false /\
  Loader.basePath
    (snd (fst (Loader.run Loader.lowercase_network (Loader.loadDayData d) st [])))
  = "./dataset/"%string.
Proof.
  intros st d.
  assert (Loader.isResolved st = false) as Hunres by reflexivity.
  split; [exact Hunres|].
  rewrite (loadDayData_recovers_through_fallback Loader.lowercase_network d
             Loader.sample_csv st ["./Dataset/"; "./Dataset/"]%string
             ["./data/"; "/Dataset/"; "/data/"]%string "./dataset/"%string).
  - reflexivity.
  - reflexivity.
  - reflexivity.
  - exact Hunres.
  - reflexivity.
  - repeat constructor.
  - reflexivity.
Defined.

(** X26: with an explicit root a missing day file is asked for twice at
    the same address and no candidate root is probed: after [setBasePath]
    with a non-empty path, a [loadDayData] whose file is not served
    fetches the day path below that root, fetches it again, returns an
    empty array and leaves the cache and the root as they were. *)
Theorem loadDayData_override_fails_twice (net : Loader.network) (path d : string)
  (st : Loader.state) (log : list string) :
  path <> ""%string ->
  let st' := Loader.setBasePath path st in
  let url := Loader.testUrl (Loader.relativePath d) path in
  Loader.dataCache st !! d = None ->
  Loader.response_ok (net url) = false ->
  let '(a, st'', log') := Loader.run net (Loader.loadDayData d) st' log in
  log' = log ++ [url; url] /\
  Loader.items a = [] /\
  Loader.dataCache st'' = Loader.dataCache st /\
  Loader.currentRoot st'' = Loader.with_slash path.
Proof.
  intros Hpath st' url Hmiss Hfail.
  destruct (setBasePath_root path st Hpath) as (Hroot & Hres & Hcache).
  fold st' in Hroot, Hres, Hcache.
  assert (Loader.dayPath st' d = url) as Hurl by (by apply testUrl_dayPath).
  rewrite (run_loadDayData_fail net d st' log).
  - rewrite Hres, Hurl. cbn [app]. split; [by rewrite <- app_assoc|].
    split; [done|]. split; [done|]. exact Hroot.
  - by rewrite Hcache.
  - by rewrite Hurl.
  - by left.
Qed.

Lemma loadDayData_override_fails_twice_witness :
  let st := Loader.new_DataLoader None in
  let '(a, st', log') :=
    Loader.run Loader.default_network (Loader.loadDayData "20130101")
      (Loader.setBasePath "/srv/data" st) [] in
  "/srv/data"%string <> ""%string /\
  log' = ["/srv/data/201301/CN-Reanalysis-daily-2013010100.csv";
          "/srv/data/201301/CN-Reanalysis-daily-2013010100.csv"]%string.
Proof.
  intros st.
  assert ("/srv/data"%string <> ""%string) as Hpath by discriminate.
  pose proof (loadDayData_override_fails_twice Loader.default_network "/srv/data"
                "20130101" st [] Hpath eq_refl eq_refl) as Hspec.
  destruct (Loader.run Loader.default_network (Loader.loadDayData "20130101")
              (Loader.setBasePath "/srv/data" st) []) as [[a st'] log'].
  destruct Hspec as (Hlog & _). split; [exact Hpath|]. exact Hlog.
Defined.





(** X19: [loadMonthData] always leaves an entry under the month key,
    also when the file of the first day cannot be loaded (the entry is
    then empty): it issues one fetch, below [basePath], and a second call
    for the month returns the same array without any fetch. *)
Theorem loadMonthData_always_caches (net : Loader.network) (yearMonth : string)
  (st : Loader.state) (log : list string) :
  Loader.dataCache st !! yearMonth = None ->
  let '(a, st', log') := Loader.run net (Loader.loadMonthData yearMonth) st log in
  log' = log ++ [Loader.monthPath st yearMonth] /\
  Loader.dataCache st' !! yearMonth = Some a /\
  Loader.array_id a = Loader.allocated st /\
  (Loader.response_ok (net (Loader.monthPath st yearMonth)) = false ->
   Loader.items a = []) /\
  forall net' log'',
    Loader.run net' (Loader.loadMonthData yearMonth) st' log'' = (a, st', log'').
Proof.
  intros Hmiss.
  assert (forall a st', Loader.dataCache st' !! yearMonth = Some a ->
            forall net' log'',
              Loader.run net' (Loader.loadMonthData yearMonth) st' log''
              = (a, st', log'')) as Hhit.
  { intros a st' Hcached net' log''. unfold Loader.loadMonthData.
    by rewrite run_bind, run_get, Hcached. }
  unfold Loader.loadMonthData.
  rewrite run_bind, run_get, Hmiss, run_bind, run_new_array, run_bind.
  destruct (Loader.response_ok (net (Loader.monthPath st yearMonth))) eqn:Hok.
  - destruct (run_loadCSVFile_ok net (Loader.monthPath st yearMonth)
                (Loader.State (Loader.dataCache st) (Loader.basePath st)
                              (Loader.resolvedBasePath st) (S (Loader.allocated st)))
                log Hok) as (headers & rows & ->).
    rewrite run_bind, run_get, run_bind, run_put, run_ret.
    split; [done|]. split; [apply lookup_insert_eq|]. split; [done|].
    split; [done|]. apply Hhit. apply lookup_insert_eq.
  - rewrite run_loadCSVFile_fail by done.
    rewrite run_bind, run_get, run_bind, run_put, run_ret.
    split; [done|]. split; [apply lookup_insert_eq|]. split; [done|].
    split; [done|]. apply Hhit. apply lookup_insert_eq.
Qed.

Lemma loadMonthData_always_caches_witness :
  let st := Loader.new_DataLoader None in
  let '(a, st', log') :=
    Loader.run Loader.down_network (Loader.loadMonthData "201301") st [] in
  Loader.dataCache st !! "201301"%string = None /\
  Loader.dataCache st' !! "201301"%string = Some a /\
  Loader.items a = [].
Proof.
  intros st.
  assert (Loader.dataCache st !! "201301"%string = None) as Hmiss by reflexivity.
  pose proof (loadMonthData_always_caches Loader.down_network "201301" st [] Hmiss)
    as Hspec.
  destruct (Loader.run Loader.down_network (Loader.loadMonthData "201301") st [])
    as [[a st'] log'].
  destruct Hspec as (_ & Hcached & _ & Hempty & _).
  split; [exact Hmiss|]. split; [exact Hcached|]. apply Hempty. reflexivity.
Defined.

(** ** Loading several days *)

Lemma advance_loadDayData (d : string) (st : Loader.state) (log : list string) :
  match Loader.dataCache st !! d with
  | Some a => Loader.advance (Loader.loadDayData d) st log = (Loader.Finished a, st, log)
  | None =>
      exists k,
        Loader.advance (Loader.loadDayData d) st log
        = (Loader.Suspended (Loader.dayPath st d) k, st, log ++ [Loader.dayPath st d])
  end.
Proof.
  unfold Loader.loadDayData. cbn.
  destruct (Loader.dataCache st !! d) as [a|]; [done|].
  cbn. by eexists.
Qed.

(** X20: the day loads of a series are all started before any response
    arrives: every date that is not in the cache gets one fetch of its day
    path, in the order of the date list, a cached date gets none, one task
    is added per date, and the loader itself is not changed by starting
    them. *)
Theorem loadPromises_start_all (dates : list string) (ts : list (Loader.task Loader.array))
  (st : Loader.state) (log : list string) :
  let p := Loader.loadPromises dates (Loader.Pool ts st log) in
  Loader.shared p = st /\
  Loader.issued p
  = log ++ map (Loader.dayPath st)
               (List.filter (fun d => negb (Loader.isCached st d)) dates) /\
  length (Loader.tasks p) = length ts + length dates.
Proof.
  revert ts log. unfold Loader.loadPromises.
  induction dates as [|d rest IH]; intros ts log.
  - cbn. by rewrite app_nil_r, Nat.add_0_r.
  - cbn [fold_left List.filter].
    pose proof (advance_loadDayData d st log) as Hadv.
    destruct (Loader.dataCache st !! d) as [a|] eqn:Hc.
    + assert (Loader.isCached st d = true) as ->
        by (unfold Loader.isCached; by rewrite Hc).
      assert (Loader.call (Loader.loadDayData d) (Loader.Pool ts st log)
              = Loader.Pool (ts ++ [Loader.Finished a]) st log) as ->
        by (unfold Loader.call; cbn [Loader.shared Loader.issued Loader.tasks];
            by rewrite Hadv).
      cbn [negb].
      destruct (IH (ts ++ [Loader.Finished a]) log) as (Hst & Hlog & Hlen).
      split; [exact Hst|]. split; [exact Hlog|].
      rewrite Hlen, length_app. cbn. lia.
    + destruct Hadv as [k Hadv].
      assert (Loader.isCached st d = false) as ->
        by (unfold Loader.isCached; by rewrite Hc).
      assert (Loader.call (Loader.loadDayData d) (Loader.Pool ts st log)
              = Loader.Pool (ts ++ [Loader.Suspended (Loader.dayPath st d) k]) st
                            (log ++ [Loader.dayPath st d])) as ->
        by (unfold Loader.call; cbn [Loader.shared Loader.issued Loader.tasks];
            by rewrite Hadv).
      cbn [negb].
      destruct (IH (ts ++ [Loader.Suspended (Loader.dayPath st d) k])
                  (log ++ [Loader.dayPath st d])) as (Hst & Hlog & Hlen).
      split; [exact Hst|]. split.
      * rewrite Hlog. cbn. by rewrite <- app_assoc.
      * rewrite Hlen, length_app. cbn. lia.
Qed.

Lemma walkBack_spec (fuel : nat) :
  forall currentDate endDate acc,
    (currentDate - endDate + 1 = Z.of_nat fuel)%Z ->
    exists t,
      Loader.walkBack fuel currentDate endDate acc = acc ++ t /\
      length t <= fuel /\
      (0 < fuel -> 0 < length t) /\
      (forall i s, t !! i = Some s ->
                   s = Loader.formatDate (currentDate - Z.of_nat i)) /\
      (forall i s, t !! i = Some s -> S i < length t ->
                   String.ltb s "20130101" = false) /\
      (length t < fuel ->
       exists s, last t = Some s /\ String.ltb s "20130101" = true).
Proof.
  induction fuel as [|fuel IH]; intros currentDate endDate acc Hfuel.
  - exists []. cbn. rewrite app_nil_r. repeat split; try done; lia.
  - cbn [Loader.walkBack].
    assert ((endDate <=? currentDate)%Z = true) as -> by (apply Z.leb_le; lia).
    destruct (String.ltb (Loader.formatDate currentDate) "20130101") eqn:Hbelow.
    + exists [Loader.formatDate currentDate]. cbn [length].
      split; [done|]. split; [lia|]. split; [lia|]. split; [|split].
      * intros [|i] s Hs; [|done]. injection Hs as <-.
        by rewrite Z.sub_0_r.
      * intros i s _ Hlt. lia.
      * intros _. by eexists.
    + destruct (IH (currentDate - 1)%Z endDate (acc ++ [Loader.formatDate currentDate])
                  ltac:(lia)) as (t & Heq & Hlen & Hpos & Hat & Hin & Hstop).
      exists (Loader.formatDate currentDate :: t). cbn [length].
      split; [by rewrite Heq, <- app_assoc|]. split; [lia|]. split; [lia|].
      split; [|split].
      * intros [|i] s Hs.
        -- injection Hs as <-. by rewrite Z.sub_0_r.
        -- rewrite (Hat i s Hs). f_equal. lia.
      * intros [|i] s Hs Hlt.
        -- by injection Hs as <-.
        -- apply (Hin i s Hs). lia.
      * intros Hshort. destruct (Hstop ltac:(lia)) as (s & Hlast & Hs).
        exists s. split; [|done]. destruct t; [done|]. exact Hlast.
Qed.

(** X21: the date walk of [loadConsecutiveDays]. For a start date that
    parses, the list starts at the start date and goes back one calendar
    day per entry; it has between 1 and [days + 1] entries; every entry
    but the last is, as text, not below 20130101; and when the list is
    shorter than [days + 1], its last entry is below 20130101. A start
    date that does not parse gives no list. *)
Theorem availableDates_walk (startDate : string) (days : nat) :
  match Loader.parseDate startDate with
  | None => Loader.availableDates startDate days = None
  | Some start =>
      exists dates,
        Loader.availableDates startDate days = Some dates /\
        1 <= length dates <= days + 1 /\
        (forall i s, dates !! i = Some s ->
                     s = Loader.formatDate (start - Z.of_nat i)) /\
        (forall i s, dates !! i = Some s -> S i < length dates ->
                     String.ltb s "20130101" = false) /\
        (length dates < days + 1 ->
         exists s, last dates = Some s /\ String.ltb s "20130101" = true)
  end.
Proof.
  unfold Loader.availableDates.
  destruct (Loader.parseDate startDate) as [start|]; [|done].
  destruct (walkBack_spec (S days) start (start - Z.of_nat days) [] ltac:(lia))
    as (t & Heq & Hlen & Hpos & Hat & Hin & Hstop).
  exists t. cbn [app] in Heq. rewrite Heq.
  split; [done|]. split; [lia|]. split; [exact Hat|]. split; [exact Hin|].
  intros Hshort. apply Hstop. lia.
Qed.

Lemma availableDates_walk_witness :
  exists dates,
    Loader.availableDates "20130105" 10 = Some dates /\
    dates !! 5 = Some "20121231"%string /\
    String.ltb "20121231" "20130101" = true.
Proof.
  pose proof (availableDates_walk "20130105" 10) as Hwalk.
  assert (Loader.parseDate "20130105" = Some 15710%Z) as Hparse
    by (vm_compute; reflexivity).
  rewrite Hparse in Hwalk. destruct Hwalk as (dates & Heq & _).
  exists dates. split; [exact Heq|].
  assert (dates = ["20130105"; "20130104"; "20130103"; "20130102"; "20130101";
                   "20121231"]%string) as ->.
  { assert (Loader.availableDates "20130105" 10
            = Some ["20130105"; "20130104"; "20130103"; "20130102"; "20130101";
                    "20121231"]%string) as Hval by (vm_compute; reflexivity).
    congruence. }
  split; reflexivity.
Defined.

(** ** Column resolution *)

Lemma prefix_app_r (p s q : string) :
  String.prefix p s = true -> String.prefix p (s ++ q) = true.
Proof.
  revert s. induction p as [|ch p IH]; intros s Hp.
  - by destruct (s ++ q)%string.
  - destruct s as [|ch' s]; [done|].
    rewrite string_app_cons. cbn [String.prefix] in *.
    destruct (ascii_dec ch ch'); [by apply IH | done].
Qed.

Lemma includes_prefix (s sub : string) :
  String.prefix sub s = true -> Js.includes s sub = true.
Proof. intros Hp. destruct s; cbn [Js.includes]; by rewrite Hp. Qed.

Lemma includes_app_l (p s sub : string) :
  Js.includes s sub = true -> Js.includes (p ++ s) sub = true.
Proof.
  intros Hs. induction p as [|ch p IH]; [done|].
  rewrite string_app_cons. cbn [Js.includes]. by rewrite IH, orb_true_r.
Qed.

Lemma includes_middle (a sub b : string) :
  Js.includes (a ++ sub ++ b) sub = true.
Proof. apply includes_app_l, includes_prefix, prefix_app. Qed.

Lemma trim_start_suffix (s : string) :
  exists w, s = (w ++ Js.trim_start s)%string.
Proof.
  induction s as [|ch s [w IH]]; [by exists ""%string|].
  cbn [Js.trim_start]. destruct (Js.is_ws ch).
  - exists (String ch w). by rewrite string_app_cons, <- IH.
  - by exists ""%string.
Qed.

Lemma trim_end_prefix (s : string) :
  exists w, s = (Js.trim_end s ++ w)%string.
Proof.
  unfold Js.trim_end.
  destruct (trim_start_suffix (String.rev s)) as [w Hw].
  exists (String.rev w).
  rewrite <- string_rev_app, <- Hw. by rewrite string_rev_involutive.
Qed.

Lemma trim_inside (s : string) :
  exists a b, s = (a ++ Js.trim s ++ b)%string.
Proof.
  unfold Js.trim.
  destruct (trim_start_suffix s) as [a Ha].
  destruct (trim_end_prefix (Js.trim_start s)) as [b Hb].
  exists a, b. by rewrite <- Hb.
Qed.

Lemma possibleKeys_include (pollutantName key : string) :
  In key (Loader.possibleKeys pollutantName) ->
  Js.includes key (Js.trim pollutantName) = true.
Proof.
  destruct (trim_inside pollutantName) as (a & b & Hname).
  set (t := Js.trim pollutantName) in *.
  unfold Loader.possibleKeys. fold t.
  intros [<- | [<- | [<- | [<- | [<- | [<- | []]]]]]].
  - rewrite Hname. apply includes_middle.
  - apply includes_prefix. rewrite <- (string_app_nil_r t) at 2. apply prefix_app.
  - rewrite Hname. apply (includes_middle (" " ++ a) t b).
  - rewrite Hname, !string_app_assoc. apply includes_middle.
  - rewrite Hname, !string_app_assoc. apply includes_middle.
  - rewrite Hname, !string_app_assoc. apply (includes_middle (" " ++ a) t).
Qed.

Lemma has_own_keys (o : Js.object) (k : string) :
  Js.has_own o k = true <-> In k (Js.keys o).
Proof.
  unfold Js.has_own, Js.keys. rewrite existsb_exists, in_map_iff. split.
  - intros ([k' x] & Hin & Heq). apply String.eqb_eq in Heq. cbn in Heq. subst k'.
    by exists (k, x).
  - intros ([k' x] & Heq & Hin). cbn in Heq. subst k'.
    exists (k, x). split; [done|]. apply String.eqb_refl.
Qed.

(** X22: a column named exactly like the variable wins: when the first
    record has it, the points are read from that column, whatever other
    columns contain the name. *)
Theorem extract_exact_column_first (first : Js.object) (rest : list Js.object)
  (pollutantName : string) :
  Js.has_own first pollutantName = true ->
  pollutantName <> ""%string ->
  Loader.extractPollutantData (first :: rest) pollutantName
  = List.filter Loader.keeps (map (Loader.project pollutantName) (first :: rest)).
Proof.
  intros Hown Hname. apply String.eqb_neq in Hname.
  unfold Loader.extractPollutantData.
  assert (Loader.matchKey first pollutantName = Some pollutantName) as ->.
  { unfold Loader.matchKey, Loader.possibleKeys. cbv zeta. cbn [find].
    rewrite Hown. cbn [Loader.no_key]. by rewrite Hname. }
  cbv zeta. cbn [Loader.no_key]. by rewrite Hname.
Qed.

Lemma extract_exact_column_first_witness :
  let first : Js.object := [("PM10(x)", Js.VNum 7); ("PM10", Js.VNum 8)]%string in
  let rest : list Js.object :=
    [ [("PM10(x)", Js.VNum 9); ("PM10", Js.VStr "NA")] ]%string in
  Js.has_own first "PM10" = true /\
  map Loader.value (Loader.extractPollutantData (first :: rest) "PM10") = [Js.VNum 8].
Proof.
  intros first rest. split; [reflexivity|].
  rewrite (extract_exact_column_first first rest "PM10"); [|reflexivity|discriminate].
  vm_compute. reflexivity.
Defined.

(** X23: when no column name of the first record contains the trimmed
    variable name, no point is extracted. *)
Theorem extract_unresolved_is_empty (first : Js.object) (rest : list Js.object)
  (pollutantName : string) :
  (forall key, In key (Js.keys first) ->
               Js.includes key (Js.trim pollutantName) = false) ->
  Loader.extractPollutantData (first :: rest) pollutantName = [].
Proof.
  intros Hnone. unfold Loader.extractPollutantData.
  assert (Loader.matchKey first pollutantName = None) as ->; [|done].
  unfold Loader.matchKey.
  destruct (find _ (Loader.possibleKeys pollutantName)) as [key|] eqn:Hdirect.
  - apply find_some in Hdirect as [Hin Hown].
    apply has_own_keys in Hown. apply Hnone in Hown.
    rewrite possibleKeys_include in Hown by done. discriminate.
  - cbn [Loader.no_key].
    destruct (find _ (Js.keys first)) as [key|] eqn:Hfuzzy; [|done].
    apply find_some in Hfuzzy as [Hin Hinc]. rewrite Hnone in Hinc by done.
    discriminate.
Qed.

Lemma extract_unresolved_is_empty_witness :
  Loader.extractPollutantData (snd (Loader.parseCSV Loader.sample_csv)) "O3" = [].
Proof.
  assert (exists first rest,
            snd (Loader.parseCSV Loader.sample_csv) = first :: rest /\
            Js.keys first = ["lat"; "lon"; "PM2.5(微克每立方米)"; "date"]%string)
    as (first & rest & -> & Hkeys).
  { eexists _, _. vm_compute. split; reflexivity. }
  apply extract_unresolved_is_empty. rewrite Hkeys.
  intros key [<- | [<- | [<- | [<- | []]]]]; vm_compute; reflexivity.
Defined.

(** ** The date selector *)

(** X24: the date list of the selector is the 1826 consecutive calendar
    days from 2013-01-01 to 2017-12-31 in ascending order, and each of its
    entries is read back by the date parser as the day it was formatted
    from. *)
Theorem generateDateList_consecutive_days :
  App.generateDateList = map Loader.formatDate (App.count_up 15706 1826) /\
  head App.generateDateList = Some "20130101"%string /\
  last App.generateDateList = Some "20171231"%string /\
  forall s, In s App.generateDateList ->
            Loader.formatDate <$> Loader.parseDate s = Some s.
Proof.
  split; [vm_compute; reflexivity|]. split; [vm_compute; reflexivity|].
  split; [vm_compute; reflexivity|].
  assert (forall l : list string,
            forallb (fun s => match Loader.parseDate s with
                              | Some z => String.eqb (Loader.formatDate z) s
                              | None => false
                              end) l = true ->
            forall s, In s l -> Loader.formatDate <$> Loader.parseDate s = Some s)
    as Hgen.
  { intros l Hall s Hin. rewrite forallb_forall in Hall. specialize (Hall s Hin).
    destruct (Loader.parseDate s) as [z|]; [|done].
    apply String.eqb_eq in Hall.
    change (Some (Loader.formatDate z) = Some s). by f_equal. }
  apply Hgen. vm_compute. reflexivity.
Qed.

(** ** The aggregation of the time-series chart *)

Section Grouping.
Context {A : Type}.
Variable date : A -> string.

Lemma group_add_keys (g : list (string * list A)) (d : A) :
  map fst (Timeseries.group_add date g d)
  = if existsb (fun k => String.eqb k (date d)) (map fst g)
    then map fst g else map fst g ++ [date d].
Proof.
  induction g as [|[key members] g IH]; [done|].
  cbn [Timeseries.group_add map fst existsb].
  destruct (String.eqb key (date d)); [done|].
  cbn [map fst orb]. rewrite IH. by destruct (existsb _ _).
Qed.

Lemma group_add_In (g : list (string * list A)) (d : A) k ms :
  NoDup (map fst g) ->
  In (k, ms) (Timeseries.group_add date g d) ->
  (String.eqb k (date d) = false /\ In (k, ms) g)
  \/ (k = date d /\ exists ms0, In (k, ms0) g /\ ms = ms0 ++ [d])
  \/ (k = date d /\ ~ In k (map fst g) /\ ms = [d]).
Proof.
  induction g as [|[key members] g IH]; intros Hnodup Hin.
  - cbn in Hin. destruct Hin as [Heq|[]]. injection Heq as <- <-.
    right; right. split; [done|]. split; [|done]. cbn. tauto.
  - cbn [Timeseries.group_add] in Hin. cbn [map fst] in Hnodup.
    apply NoDup_cons in Hnodup as [Hfresh Hnodup].
    destruct (String.eqb key (date d)) eqn:Hkey.
    + apply String.eqb_eq in Hkey.
      destruct Hin as [Heq|Hin].
      * injection Heq as <- <-. right; left. split; [done|].
        exists members. split; [by left | done].
      * left. split; [|by right].
        apply String.eqb_neq. intros ->. apply Hfresh.
        rewrite Hkey. apply list_elem_of_In, in_map_iff. by exists (date d, ms).
    + destruct Hin as [Heq|Hin].
      * injection Heq as <- <-. left. split; [done | by left].
      * destruct (IH Hnodup Hin) as [[Hne Hg] | [[-> (ms0 & Hg & ->)] | (-> & Hnew & ->)]].
        -- left. split; [done | by right].
        -- right; left. split; [done|]. exists ms0. split; [by right | done].
        -- right; right. split; [done|]. split; [|done].
           intros [Heq|Hin']; [|done]. cbn in Heq. subst key.
           by rewrite String.eqb_refl in Hkey.
Qed.

Lemma filter_none (f : A -> bool) (l : list A) :
  (forall x, In x l -> f x = false) -> List.filter f l = [].
Proof.
  induction l as [|x l IH]; intros Hnone; [done|].
  cbn. rewrite (Hnone x) by (by left). apply IH. intros y Hy. apply Hnone. by right.
Qed.

Lemma existsb_keys (keys : list string) (k : string) :
  existsb (fun k' => String.eqb k' k) keys = true <-> In k keys.
Proof.
  rewrite existsb_exists. split.
  - intros (k' & Hin & Heq). apply String.eqb_eq in Heq. by subst.
  - intros Hin. exists k. split; [done | apply String.eqb_refl].
Qed.

Lemma grouped_add (g : list (string * list A)) (l : list A) (d : A) :
  Timeseries.grouped date g l ->
  Timeseries.grouped date (Timeseries.group_add date g d) (l ++ [d]).
Proof.
  intros (Hnodup & Hmembers & Hcover & Hkeys).
  pose proof (group_add_keys g d) as Hk.
  destruct (existsb (fun k => String.eqb k (date d)) (map fst g)) eqn:Hex.
  - apply existsb_keys in Hex. split; [|split; [|split]].
    + by rewrite Hk.
    + intros k ms Hin. rewrite List.filter_app. cbn [List.filter].
      destruct (group_add_In g d k ms Hnodup Hin)
        as [[Hne Hg] | [[-> (ms0 & Hg & ->)] | (-> & Hnew & _)]].
      * rewrite String.eqb_sym, Hne, app_nil_r. by apply Hmembers.
      * rewrite String.eqb_refl. f_equal. by apply Hmembers.
      * done.
    + intros d' Hd'. rewrite Hk. apply in_app_iff in Hd' as [Hd'|[<-|[]]]; auto.
    + intros k Hin. rewrite Hk in Hin. destruct (Hkeys k Hin) as (d' & Hd' & <-).
      exists d'. split; [|done]. apply in_app_iff. by left.
  - assert (~ In (date d) (map fst g)) as Hnew.
    { intros Hin. apply existsb_keys in Hin. congruence. }
    split; [|split; [|split]].
    + rewrite Hk. apply NoDup_app. split; [done|]. split.
      * intros k Hin Hk'. apply list_elem_of_In in Hin.
        apply list_elem_of_In in Hk'. destruct Hk' as [<-|[]]. done.
      * apply NoDup_singleton.
    + intros k ms Hin. rewrite List.filter_app. cbn [List.filter].
      destruct (group_add_In g d k ms Hnodup Hin)
        as [[Hne Hg] | [[-> (ms0 & Hg & ->)] | (-> & _ & ->)]].
      * rewrite String.eqb_sym, Hne, app_nil_r. by apply Hmembers.
      * exfalso. apply Hnew. apply in_map_iff. by exists (date d, ms0).
      * rewrite String.eqb_refl, filter_none; [done|].
        intros d' Hd'. apply String.eqb_neq. intros Heq.
        apply Hnew. rewrite <- Heq. by apply Hcover.
    + intros d' Hd'. rewrite Hk. apply in_app_iff.
      apply in_app_iff in Hd' as [Hd'|[<-|[]]]; [left; auto | right; by left].
    + intros k Hin. rewrite Hk in Hin. apply in_app_iff in Hin as [Hin|[<-|[]]].
      * destruct (Hkeys k Hin) as (d' & Hd' & <-).
        exists d'. split; [|done]. apply in_app_iff. by left.
      * exists d. split; [|done]. apply in_app_iff. right. by left.
Qed.

Lemma grouped_fold (data : list A) :
  forall g l,
    Timeseries.grouped date g l ->
    Timeseries.grouped date (fold_left (Timeseries.group_add date) data g) (l ++ data).
Proof.
  induction data as [|d data IH]; intros g l Hg.
  - by rewrite app_nil_r.
  - cbn [fold_left]. replace (l ++ d :: data) with ((l ++ [d]) ++ data)
      by (by rewrite <- app_assoc).
    apply IH. by apply grouped_add.
Qed.

Lemma d3_group_grouped (data : list A) :
  Timeseries.grouped date (Timeseries.d3_group date data) data.
Proof.
  apply (grouped_fold data [] []). repeat split; try done. constructor.
Qed.
End Grouping.

Lemma insert_by_date_perm x l :
  Permutation (Timeseries.insert_by_date x l) (x :: l).
Proof.
  induction l as [|y l IH]; [done|]. cbn.
  destruct (String.leb (fst x) (fst y)); [done|].
  rewrite IH. apply perm_swap.
Qed.

Lemma sort_by_date_perm l : Permutation (Timeseries.sort_by_date l) l.
Proof.
  induction l as [|x l IH]; [done|]. cbn.
  rewrite insert_by_date_perm. by constructor.
Qed.

Lemma insert_by_date_sorted x l :
  Sorted (fun a b => String.leb (fst a) (fst b) = true) l ->
  Sorted (fun a b => String.leb (fst a) (fst b) = true) (Timeseries.insert_by_date x l).
Proof.
  induction l as [|y l IH]; intros Hsorted; cbn.
  - by repeat constructor.
  - destruct (String.leb (fst x) (fst y)) eqn:Hle.
    + constructor; [done|]. by constructor.
    + apply Sorted_inv in Hsorted as [Hl Hhd].
      constructor; [by apply IH|].
      assert (String.leb (fst y) (fst x) = true) as Hyx.
      { destruct (String.leb_total (fst x) (fst y)); [congruence | done]. }
      destruct l as [|z l]; cbn; [by constructor|].
      destruct (String.leb (fst x) (fst z)); constructor; [done|].
      by apply HdRel_inv in Hhd.
Qed.

Lemma sort_by_date_sorted l :
  Sorted (fun a b => String.leb (fst a) (fst b) = true) (Timeseries.sort_by_date l).
Proof.
  induction l as [|x l IH]; cbn; [constructor|]. by apply insert_by_date_sorted.
Qed.

(** X25: the chart gets one point per date. The dates of the aggregated
    points are exactly the dates that occur in the data, each once, in
    ascending order; and the value of each point is the mean of the
    values of all points of that date, taken in their order in the data. *)
Theorem aggregatedData_one_point_per_date {A : Type} (date : A -> string)
  (value : A -> Js.value) (data : list A) :
  let agg := Timeseries.aggregatedData date value data in
  NoDup (map fst agg) /\
  Sorted (fun a b => String.leb (fst a) (fst b) = true) agg /\
  (forall s, In s (map fst agg) <-> exists d, In d data /\ date d = s) /\
  (forall s m, In (s, m) agg ->
     m = Timeseries.mean_by value
           (List.filter (fun d => String.eqb (date d) s) data)).
Proof.
  intros agg. subst agg. unfold Timeseries.aggregatedData.
  set (means := map _ (Timeseries.d3_group date data)).
  destruct (d3_group_grouped date data) as (Hnodup & Hmembers & Hcover & Hkeys).
  assert (map fst means = map fst (Timeseries.d3_group date data)) as Hfst.
  { unfold means. rewrite map_map. apply map_ext. by intros [k ms]. }
  pose proof (sort_by_date_perm means) as Hperm.
  split; [|split; [|split]].
  - rewrite Hperm, Hfst. exact Hnodup.
  - apply sort_by_date_sorted.
  - intros s. rewrite Hperm, Hfst. split.
    + apply Hkeys.
    + intros (d & Hd & <-). by apply Hcover.
  - intros s m Hin.
    apply (Permutation_in _ Hperm) in Hin.
    unfold means in Hin. apply in_map_iff in Hin as ([k ms] & Heq & Hin).
    injection Heq as -> <-. by rewrite (Hmembers s ms Hin).
Qed.

Lemma aggregatedData_one_point_per_date_witness :
  let data := [("20130102", Js.VNum 4); ("20130101", Js.VNum 1);
               ("20130102", Js.VStr "NA"); ("20130101", Js.VNum 3)]%string in
  In ("20130101"%string, Some 2%float) (Timeseries.aggregatedData fst snd data) /\
  Some 2%float
  = Timeseries.mean_by snd
      (List.filter (fun d => String.eqb (fst d) "20130101") data).
Proof.
  intros data.
  assert (In ("20130101"%string, Some 2%float) (Timeseries.aggregatedData fst snd data))
    as Hin by (vm_compute; left; reflexivity).
  split; [exact Hin|].
  exact (proj2 (proj2 (proj2 (aggregatedData_one_point_per_date fst snd data)))
           _ _ Hin).
Defined.
